(** * react-mobx-local-model: a shallow embedding of [ReactModel.ts] and
      [observerWithModel.ts]

    The development follows the two source files:

    - JavaScript values, truthiness, strict equality, thrown errors;
    - [ReactModel]: the base class, its constructor and [die];
    - [createModel]: the lazy accessor, the per-key [Map] of computed values
      and [dispose];
    - [observerComponent]: the hooks of the produced component, run as a
      render phase followed by the effects of the commit phase;
    - [observerWithModel]: what happens at wrap time (guards, unwrapping of
      [forwardRef], [forwardRef] / [memo] composition, [copyStaticProperties]).

    Objects are kept in explicit stores and are named by their address, so
    that reference identity is an equality of addresses.  Numbers are
    restricted to integers. *)

From stdpp Require Import gmap strings list fin_maps.
From Stdlib Require Import ZArith.

Local Open Scope string_scope.

(** ** JavaScript values *)

Abbreviation addr := nat (only parsing).

Inductive jsval :=
| VUndefined
| VNull
| VBool (b : bool)
| VNum (n : Z)
| VStr (s : string)
| VSym (key : string)      (* Symbol.for(key) *)
| VObj (a : addr)          (* an object that is not callable, by reference *)
| VFun (a : addr)          (* a function, by reference *)
| VBuiltinFun (name : string)   (* a function of the standard library *)
| VBuiltinObj (name : string).  (* an object of the standard library *)

#[global] Instance jsval_eq_dec : EqDecision jsval.
Proof. solve_decision. Defined.

(** [a === b] *)
Definition strict_eq (a b : jsval) : bool := bool_decide (a = b).

(** ToBoolean, as used by [if (x)], [!x], [x && y] and [x ? y : z]. *)
Definition truthy (v : jsval) : bool :=
  match v with
  | VUndefined | VNull => false
  | VBool b => b
  | VNum n => negb (n =? 0)%Z
  | VStr s => negb (String.eqb s "")
  | VSym _ | VObj _ | VFun _ | VBuiltinFun _ | VBuiltinObj _ => true
  end.

(** [typeof v === 'function'] *)
Definition is_function (v : jsval) : bool :=
  match v with VFun _ | VBuiltinFun _ => true | _ => false end.

(** ** Plain objects *)

(** The properties every object literal inherits from [Object.prototype]. *)
Definition Object_prototype : gmap string jsval :=
  list_to_map
    [("constructor", VBuiltinFun "Object");
     ("__defineGetter__", VBuiltinFun "Object.prototype.__defineGetter__");
     ("__defineSetter__", VBuiltinFun "Object.prototype.__defineSetter__");
     ("hasOwnProperty", VBuiltinFun "Object.prototype.hasOwnProperty");
     ("__lookupGetter__", VBuiltinFun "Object.prototype.__lookupGetter__");
     ("__lookupSetter__", VBuiltinFun "Object.prototype.__lookupSetter__");
     ("isPrototypeOf", VBuiltinFun "Object.prototype.isPrototypeOf");
     ("propertyIsEnumerable", VBuiltinFun "Object.prototype.propertyIsEnumerable");
     ("toString", VBuiltinFun "Object.prototype.toString");
     ("valueOf", VBuiltinFun "Object.prototype.valueOf");
     ("toLocaleString", VBuiltinFun "Object.prototype.toLocaleString");
     ("__proto__", VBuiltinObj "Object.prototype")].

(** [obj[key]] for a plain object with the given own properties: the own
    property, else the one inherited from [Object.prototype]. *)
Definition literal_get (own : gmap string jsval) (key : string) : jsval :=
  match own !! key with
  | Some v => v
  | None => default VUndefined (Object_prototype !! key)
  end.

(** ** Thrown errors *)

Inductive type_error :=
| NotAFunction             (* a call whose callee is not callable *)
| PropertyOfUndefined.     (* a property read on undefined or null *)

Inductive exn :=
| Error (message : string)         (* throw new Error(message) *)
| TypeError (reason : type_error). (* raised by the runtime itself *)

#[global] Instance type_error_eq_dec : EqDecision type_error.
Proof. solve_decision. Defined.
#[global] Instance exn_eq_dec : EqDecision exn.
Proof. solve_decision. Defined.

Inductive result (A : Type) :=
| Ok (a : A)
| Throw (e : exn).
Arguments Ok {A} a.
Arguments Throw {A} e.

(** ** The reactive engine (mobx), as far as the sources use it *)

(** [IEqualsComparer<any>] *)
Abbreviation IEqualsComparer := (jsval → jsval → bool) (only parsing).

(** [comparer.identity]: [(a, b) => a === b]. *)
Definition comparer_identity : IEqualsComparer := strict_eq.

(** An [IComputedValue] created by [computed(() => getProps()[key], { equals })].
    [c_id] is the identity of the object, [c_key] the key its derivation
    reads, [c_value] the value it holds ([None] until it has been computed). *)
Record ComputedValue := {
  c_id : addr;
  c_key : string;
  c_equals : IEqualsComparer;
  c_value : option jsval;
}.

(** Modelled from the spec: the memoized computed value of the reactive
    engine is a collaborator that is not part of the sources.  Reading it
    evaluates the derivation (here already evaluated to [fresh]) and keeps
    the held value when the comparator considers the fresh one equal to it
    (spec 4.1: repeated reads return a cached value until the underlying
    property changes by that comparator's definition). *)
Definition ComputedValue_get (c : ComputedValue) (fresh : jsval)
  : jsval * ComputedValue :=
  match c_value c with
  | Some old =>
      if c_equals c old fresh then (old, c)
      else (fresh, {| c_id := c_id c; c_key := c_key c;
                      c_equals := c_equals c; c_value := Some fresh |})
  | None =>
      (fresh, {| c_id := c_id c; c_key := c_key c;
                 c_equals := c_equals c; c_value := Some fresh |})
  end.

(** What the reactive engine is asked to do, in order. *)
Inductive event :=
| ActionStart                      (* runInAction(() => { *)
| BoxSet (box : addr) (value : addr)  (* box.set(value) *)
| ActionEnd.                       (* }) *)

#[global] Instance event_eq_dec : EqDecision event.
Proof. solve_decision. Defined.

(** ** ReactModel.ts *)

(** The three values the [get] property of a model takes in the sources:
    the function [die] (set by the constructor), the accessor closure
    installed by [createModel], and [null] (set by [dispose]). *)
Inductive GetSlot :=
| get_die
| get_accessor
| get_null.

#[global] Instance GetSlot_eq_dec : EqDecision GetSlot.
Proof. solve_decision. Defined.

(** The instance fields of a [ReactModel].  [annotations] is [None] when the
    constructor argument was omitted; otherwise it holds the own properties
    of the plain object handed to [super] (an object literal, as in the
    README and in the test), [Some None] standing for an own property that
    holds undefined or null. *)
Record ReactModel := {
  annotations : option (gmap string (option IEqualsComparer));
  get : GetSlot;
}.

Definition die_message : string := "need to be reimplemented with useModel".

(** [function die(): unknown { throw new Error(...) }] *)
Definition die {A} : result A := Throw (Error die_message).

(** [constructor(readonly annotations?) { this.get = die }] *)
Definition ReactModel_constructor
    (annotations : option (gmap string (option IEqualsComparer)))
  : ReactModel :=
  {| annotations := annotations; get := get_die |}.

(** A model class [Model: { new (): TModel }]: a constructor without
    arguments whose only effect on the base class is the [annotations] it
    hands to [super]. *)
Record ModelClass := {
  super_annotations : option (gmap string (option IEqualsComparer));
}.

(** [new Model()] *)
Definition new_Model (Model : ModelClass) : ReactModel :=
  ReactModel_constructor (super_annotations Model).

(** ** The stores *)

(** The local variables of one call of [createModel]: [model] and [map]. *)
Record Scope := {
  s_model : ReactModel;
  s_map : gmap string ComputedValue;
}.

Record World := {
  next : addr;                 (* next fresh address *)
  boxes : gmap addr addr;      (* observable.box: box ↦ the props object held *)
  models : gmap addr Scope;    (* model objects, with their createModel scope *)
  log : list event;            (* requests made to the reactive engine *)
}.

Definition empty_world : World :=
  {| next := 0; boxes := ∅; models := ∅; log := [] |}.

Definition set_scope (m : addr) (sc : Scope) (w : World) : World :=
  {| next := next w; boxes := boxes w;
     models := <[m := sc]> (models w); log := log w |}.

Definition bump (w : World) : World :=
  {| next := S (next w); boxes := boxes w; models := models w; log := log w |}.

Definition emit (e : event) (w : World) : World :=
  {| next := next w; boxes := boxes w; models := models w;
     log := log w ++ [e] |}.

Section WithProps.

(** The own enumerable properties of each props object.  Props objects are
    plain objects that the sources never mutate, so one function describes
    them for the whole run. *)
Context (own_props : addr → gmap string jsval).

(** What the reactive engine gets when the comparator it calls is a member
    of [Object.prototype]: [member_equals member a b] is the truthiness of
    the result of the call [member(a, b)]. *)
Context (member_equals : jsval → IEqualsComparer).

(** [obj[key]] on a props object. *)
Definition read_prop (p : addr) (key : string) : jsval :=
  literal_get (own_props p) key.

(** [!(key in obj)] on a props object: it has no property under [key],
    neither its own nor an inherited one. *)
Definition absent (p : addr) (key : string) : Prop :=
  own_props p !! key = None ∧ Object_prototype !! key = None.

(** ** createModel *)

(** [const model = new Model(); const map = new Map();
     Object.assign(model, { get: (key) => ... });
     return { model, dispose }]
    The returned pair is named by the address of the model. *)
Definition createModel (Model : ModelClass) (w : World) : addr * World :=
  let model := new_Model Model in
  let m := next w in
  (m, set_scope m
        {| s_model := {| annotations := annotations model;
                         get := get_accessor |};
           s_map := ∅ |}
        (bump w)).

(** [model.annotations?.[key] ?? comparer.identity].  The read
    [annotations[key]] goes through the prototype chain of the object: its
    own property, else the member of [Object.prototype] of that name; only
    undefined and null give way to [comparer.identity]. *)
Definition equals_for (model : ReactModel) (key : string) : IEqualsComparer :=
  match annotations model with
  | None => comparer_identity
  | Some a =>
      match a !! key with
      | Some (Some f) => f
      | Some None => comparer_identity
      | None =>
          match Object_prototype !! key with
          | Some member => member_equals member
          | None => comparer_identity
          end
      end
  end.

(** The accessor installed by [createModel]:
[[
      let ref = map.get(key);
      if (!ref) {
        const equals = model.annotations?.[key] ?? comparer.identity;
        ref = computed(() => getProps()[key], { equals });
        map.set(key, ref);
      }
      return ref.get();
]]
    [getProps] is the function captured by the closure; it yields the
    address of a props object, or [None] for undefined. *)
Definition accessor (getProps : World → option addr)
    (m : addr) (sc : Scope) (key : string) (w : World)
  : result jsval * World :=
  let '(ref, map1, w1) :=
    match s_map sc !! key with
    | Some ref => (ref, s_map sc, w)
    | None =>
        let equals := equals_for (s_model sc) key in
        let ref := {| c_id := next w; c_key := key;
                      c_equals := equals; c_value := None |} in
        let map1 := <[key := ref]> (s_map sc) in
        (ref, map1,
         set_scope m {| s_model := s_model sc; s_map := map1 |} (bump w))
    end in
  match getProps w1 with
  | None => (Throw (TypeError PropertyOfUndefined), w1)
  | Some p =>
      let '(v, ref') := ComputedValue_get ref (read_prop p (c_key ref)) in
      (Ok v, set_scope m {| s_model := s_model sc;
                            s_map := <[key := ref']> map1 |} w1)
  end.

(** [model.get(key)]: a call of whatever the [get] property holds. *)
Definition model_get (getProps : World → option addr)
    (m : addr) (key : string) (w : World) : result jsval * World :=
  match models w !! m with
  | None => (Throw (TypeError PropertyOfUndefined), w)
  | Some sc =>
      match get (s_model sc) with
      | get_die => (die, w)
      | get_null => (Throw (TypeError NotAFunction), w)
      | get_accessor => accessor getProps m sc key w
      end
  end.

(** [function dispose() { Object.assign(model, { get: null }); map.clear(); }] *)
Definition dispose (m : addr) (w : World) : World :=
  match models w !! m with
  | None => w
  | Some sc =>
      set_scope m {| s_model := {| annotations := annotations (s_model sc);
                                   get := get_null |};
                     s_map := ∅ |} w
  end.

(** What [dispose] leaves of a scope. *)
Definition disposed (sc : Scope) : Scope :=
  {| s_model := {| annotations := annotations (s_model sc); get := get_null |};
     s_map := ∅ |}.

(** [new Model()] outside of [createModel]: the object is allocated as the
    constructor leaves it, with no accessor installed. *)
Definition construct_directly (Model : ModelClass) (w : World) : addr * World :=
  (next w,
   set_scope (next w) {| s_model := new_Model Model; s_map := ∅ |} (bump w)).

(** Successive calls [model.get(k)] for the keys of a list, each in a
    [try]: the results in order, and the final world. *)
Fixpoint reads (getProps : World → option addr) (m : addr)
    (keys : list string) (w : World) : list (result jsval) * World :=
  match keys with
  | [] => ([], w)
  | k :: keys' =>
      let '(r, w1) := model_get getProps m k w in
      let '(rs, w2) := reads getProps m keys' w1 in
      (r :: rs, w2)
  end.

(** ** observerComponent: the hooks of one component instance *)

(** Modelled from the spec: [comparer.shallow] of the reactive engine is not
    part of the sources.  Two objects are shallow-equal when they are the
    same object, or have the same own enumerable keys with identical values
    under each key. *)
Definition comparer_shallow (a b : addr) : bool :=
  bool_decide (a = b) ||
  (bool_decide (size (own_props a) = size (own_props b)) &&
   forallb (λ kv : string * jsval,
              match own_props b !! kv.1 with
              | Some v' => strict_eq kv.2 v'
              | None => false
              end)
           (map_to_list (own_props a))).

(** [observable.box(props, { deep: false })] *)
Definition observable_box (props : addr) (w : World) : addr * World :=
  (next w,
   {| next := S (next w); boxes := <[next w := props]> (boxes w);
      models := models w; log := log w |}).

(** [box.set(value)] *)
Definition box_set (b value : addr) (w : World) : World :=
  emit (BoxSet b value)
    {| next := next w; boxes := <[b := value]> (boxes w);
       models := models w; log := log w |}.

(** [runInAction(f)] *)
Definition runInAction (f : World → World) (w : World) : World :=
  emit ActionEnd (f (emit ActionStart w)).

(** The cells React keeps for one component instance: the two [useRef]
    cells, and the dependency array [[props]] of the last run of the second
    effect ([None] before the first commit). *)
Record Hooks := {
  refProps : option addr;     (* refProps.current: the box *)
  refModel : option addr;     (* refModel.current: { model, dispose } *)
  deps : option addr;
}.

Definition fresh_hooks : Hooks :=
  {| refProps := None; refModel := None; deps := None |}.

(** [() => refProps.current?.get()] *)
Definition getProps (h : Hooks) (w : World) : option addr :=
  refProps h ≫= λ b, boxes w !! b.

(** [React.createElement(ObserverWrapper, { innerRef, model, $props })] *)
Record Element := {
  e_innerRef : jsval;
  e_model : addr;
  e_props : addr;
}.

(** The body of [observerComponent] up to its [return]: the render phase. *)
Definition observerComponent_render (Model : ModelClass)
    (props : addr) (ref : jsval) (h : Hooks) (w : World)
  : Element * Hooks * World :=
  let '(b, w1) :=
    match refProps h with
    | Some b => (b, w)                       (* if (!refProps.current) *)
    | None => observable_box props w
    end in
  let '(m, w2) :=
    match refModel h with
    | Some m => (m, w1)                      (* if (!refModel.current) *)
    | None => createModel Model w1
    end in
  ({| e_innerRef := ref; e_model := m; e_props := b |},
   {| refProps := Some b; refModel := Some m; deps := deps h |},
   w2).

(** The second effect:
[[
      const { current } = refProps;
      if (current) {
        runInAction(() => {
          if (!comparer.shallow(props, current.get())) current.set(props);
        });
      }
]] *)
Definition sync_effect (props : addr) (h : Hooks) (w : World) : World :=
  match refProps h with
  | None => w
  | Some current =>
      runInAction
        (λ w0, match boxes w0 !! current with
               | Some held =>
                   if negb (comparer_shallow props held)
                   then box_set current props w0
                   else w0
               | None => w0
               end)
        w
  end.

(** The commit phase: the effect with dependencies [[props]] runs after the
    first render and after every render whose [props] is not the object of
    the previous render ([Object.is]).  The effect with dependencies [[]]
    only registers the clean-up, see [observerComponent_unmount]. *)
Definition observerComponent_commit (props : addr) (h : Hooks) (w : World)
  : Hooks * World :=
  let run_it :=
    match deps h with
    | None => true
    | Some d => negb (bool_decide (d = props))
    end in
  if run_it
  then ({| refProps := refProps h; refModel := refModel h;
           deps := Some props |},
        sync_effect props h w)
  else (h, w).

(** One render of the component instance followed by its commit. *)
Definition render_pass (Model : ModelClass) (props : addr) (ref : jsval)
    (st : Hooks * World) : Hooks * World :=
  let '(_, h1, w1) := observerComponent_render Model props ref st.1 st.2 in
  observerComponent_commit props h1 w1.

(** The clean-up of the first effect: [() => refModel.current?.dispose()]. *)
Definition observerComponent_unmount (st : Hooks * World) : Hooks * World :=
  match refModel st.1 with
  | Some m => (st.1, dispose m st.2)
  | None => st
  end.

(** What can happen to a mounted instance: the host renders it again, or
    code holding the model reads a key through its accessor. *)
Inductive step :=
| Render (props : addr) (ref : jsval)
| Read (key : string).

Definition do_step (Model : ModelClass) (st : Hooks * World) (s : step)
  : Hooks * World :=
  match s with
  | Render props ref => render_pass Model props ref st
  | Read key =>
      match refModel st.1 with
      | Some m => (st.1, (model_get (getProps st.1) m key st.2).2)
      | None => st
      end
  end.

Definition run (Model : ModelClass) (st : Hooks * World) (tr : list step)
  : Hooks * World :=
  foldl (do_step Model) st tr.

(** The first render of an instance, in any world. *)
Definition mount (Model : ModelClass) (props : addr) (ref : jsval)
    (w : World) : Hooks * World :=
  render_pass Model props ref (fresh_hooks, w).

(** The [map] of the [createModel] call that made model [m]. *)
Definition cache_of (m : addr) (w : World) : gmap string ComputedValue :=
  default ∅ (s_map <$> models w !! m).

(** The keys read through the accessor along a trace. *)
Fixpoint read_keys (tr : list step) : list string :=
  match tr with
  | [] => []
  | Read k :: tr' => k :: read_keys tr'
  | Render _ _ :: tr' => read_keys tr'
  end.

(** The state MOUNTED of an instance that owns box [b] and model [m]: both
    cells are filled, the box holds a snapshot that is shallow-equal to the
    props of the last commit, the model carries the accessor, and every
    cached computation reads its own key with the comparator configured for
    that key. *)
Definition mounted (Model : ModelClass) (b m : addr) (st : Hooks * World)
  : Prop :=
  refProps st.1 = Some b ∧ refModel st.1 = Some m ∧
  (∃ held d, boxes st.2 !! b = Some held ∧ deps st.1 = Some d ∧
             comparer_shallow d held = true) ∧
  (∃ sc, models st.2 !! m = Some sc ∧
         s_model sc = {| annotations := super_annotations Model;
                         get := get_accessor |} ∧
         ∀ k c, s_map sc !! k = Some c →
                c_key c = k ∧ c_equals c = equals_for (s_model sc) k).

(** The events the reactive engine received between two worlds. *)
Definition new_events (w w' : World) : list event :=
  drop (length (log w)) (log w').

End WithProps.

(** ** observerWithModel: wrap time *)

(** What the module reads from the runtime when it is loaded. *)
Record Runtime := {
  hasSymbol : bool;                  (* typeof Symbol === 'function' && Symbol.for *)
  isFunctionNameConfigurable : bool;
  ToString : jsval → string;         (* the conversion done by a template literal *)
}.

(** The tags React 19 (the declared dependency, in which [React.forwardRef]
    and [React.memo] are functions) puts on the objects these two make. *)
Definition REACT_FORWARD_REF_TYPE : jsval := VSym "react.forward_ref".
Definition REACT_MEMO_TYPE : jsval := VSym "react.memo".

(** [hasSymbol ? Symbol.for('react.forward_ref')
              : typeof React.forwardRef === 'function' &&
                React.forwardRef((props) => null)['$$typeof']] *)
Definition ReactForwardRefSymbol (rt : Runtime) : jsval :=
  if hasSymbol rt then VSym "react.forward_ref" else REACT_FORWARD_REF_TYPE.

Definition ReactMemoSymbol (rt : Runtime) : jsval :=
  if hasSymbol rt then VSym "react.memo" else REACT_MEMO_TYPE.

(** A render target as [observerWithModel] sees it: the value itself, its
    [name] (not enumerable) and its own enumerable properties. *)
Record JSObject := {
  o_self : jsval;
  o_name : jsval;
  o_own : gmap string jsval;
}.

(** [obj[key]] on a render target. *)
Definition prop (o : JSObject) (key : string) : jsval :=
  default VUndefined (o_own o !! key).

(** [Object.keys(obj)] *)
Definition Object_keys (own : gmap string jsval) : list string :=
  (map_to_list own).*1.

(** [const hoistBlackList: any = { $$typeof: true, render: true,
      compare: true, type: true, displayName: true }] *)
Definition hoistBlackList : gmap string jsval :=
  list_to_map
    [("$$typeof", VBool true); ("render", VBool true);
     ("compare", VBool true); ("type", VBool true);
     ("displayName", VBool true)].

(** The reserved names the spec lists. *)
Definition reserved : list string :=
  ["$$typeof"; "render"; "compare"; "type"; "displayName"].

(** The body of the [forEach] callback of [copyStaticProperties]. *)
Definition copy_key (base : gmap string jsval)
    (target : gmap string jsval) (key : string) : gmap string jsval :=
  if negb (truthy (literal_get hoistBlackList key))
  then match base !! key with
       | Some d => <[key := d]> target     (* Object.defineProperty *)
       | None => target                    (* key comes from Object.keys(base) *)
       end
  else target.

(** [function copyStaticProperties(base, target)] on the own enumerable
    properties of both. *)
Definition copyStaticProperties (base target : gmap string jsval)
  : gmap string jsval :=
  foldl (copy_key base) target (Object_keys base).

(** The components [observerWithModel] builds.  Each carries its [name] and
    its own enumerable properties. *)
Inductive Component :=
| ObserverFn (render : jsval)
    (* ({ model, $props, innerRef }) => render({ ...$props.get(), model }, innerRef),
       made reactive by [observer] *)
| ObserverComponentFn (Model : ModelClass) (ObserverWrapper : Component)
    (name : jsval) (own : gmap string jsval)
    (* the function [observerComponent], which renders [ObserverWrapper] *)
| ForwardRef (render : Component) (own : gmap string jsval)
| Memo (type : Component) (name : jsval) (own : gmap string jsval).

(** [observer(fn)] of mobx-react-lite: the reactive function under
    [React.memo]. *)
Definition observer (render : jsval) : Component :=
  Memo (ObserverFn render) VUndefined {["$$typeof" := REACT_MEMO_TYPE]}.

Definition forwardRef_message : string :=
  "forwardRef requires a render function but received a `memo` component. Instead of forwardRef(memo(...)), use memo(forwardRef(...))".

(** [forwardRef(render)].  Following the comment in the source, a [memo]
    component is rejected. *)
Definition forwardRef (render : Component) : result Component :=
  match render with
  | Memo _ _ _ => Throw (Error forwardRef_message)
  | _ => Ok (ForwardRef render {["$$typeof" := REACT_FORWARD_REF_TYPE]})
  end.

(** [React.memo(type)] *)
Definition React_memo (type : Component) : Component :=
  Memo type VUndefined {["$$typeof" := REACT_MEMO_TYPE]}.

(** [x ? `${prefix}${x}` : x] *)
Definition labelled (rt : Runtime) (prefix : string) (x : jsval) : jsval :=
  if truthy x then VStr (prefix ++ ToString rt x) else x.

Definition memo_message : string :=
  "[@writercolab/react-mobx] You are trying to use `observer` on a function component wrapped in either another `observer` or `React.memo`. The observer already applies 'React.memo' for you.".

Definition render_message : string :=
  "[@writercolab/react-mobx] `render` property of ForwardRef was not a function".

(** [obj.displayName = v] and
    [Object.defineProperty(obj, 'name', { value: v, ... })] on a component. *)
Definition set_displayName (v : jsval) (c : Component) : Component :=
  match c with
  | ObserverFn r => ObserverFn r
  | ObserverComponentFn M W n own =>
      ObserverComponentFn M W n (<["displayName" := v]> own)
  | ForwardRef r own => ForwardRef r (<["displayName" := v]> own)
  | Memo t n own => Memo t n (<["displayName" := v]> own)
  end.

Definition set_name (v : jsval) (c : Component) : Component :=
  match c with
  | ObserverComponentFn M W _ own => ObserverComponentFn M W v own
  | Memo t _ own => Memo t v own
  | other => other
  end.

Definition own_of (c : Component) : gmap string jsval :=
  match c with
  | ObserverFn _ => ∅
  | ObserverComponentFn _ _ _ own | ForwardRef _ own | Memo _ _ own => own
  end.

(** [copyStaticProperties(base, target)] with a component as target. *)
Definition copy_statics_to (base : JSObject) (c : Component) : Component :=
  match c with
  | ObserverFn r => ObserverFn r
  | ObserverComponentFn M W n own =>
      ObserverComponentFn M W n (copyStaticProperties (o_own base) own)
  | ForwardRef r own => ForwardRef r (copyStaticProperties (o_own base) own)
  | Memo t n own => Memo t n (copyStaticProperties (o_own base) own)
  end.

(** [observerWithModel(Model, baseComponent)] *)
Definition observerWithModel (rt : Runtime) (Model : ModelClass)
    (baseComponent : JSObject) : result Component :=
  if truthy (ReactMemoSymbol rt)
     && strict_eq (prop baseComponent "$$typeof") (ReactMemoSymbol rt)
  then Throw (Error memo_message)
  else
    let is_forward :=
      truthy (ReactForwardRefSymbol rt)
      && strict_eq (prop baseComponent "$$typeof") (ReactForwardRefSymbol rt) in
    let useForwardRef := is_forward in
    let render :=
      if is_forward then prop baseComponent "render"
      else o_self baseComponent in
    if is_forward && negb (is_function render)
    then Throw (Error render_message)
    else
      let ObserverWrapper := observer render in
      let ObserverWrapper :=
        set_displayName
          (labelled rt "ObserverWrapper" (prop baseComponent "displayName"))
          ObserverWrapper in
      let ObserverWrapper :=
        if isFunctionNameConfigurable rt
        then set_name (labelled rt "Wrap" (o_name baseComponent)) ObserverWrapper
        else ObserverWrapper in
      let ObserverWrapper := copy_statics_to baseComponent ObserverWrapper in
      let observerComponent :=
        ObserverComponentFn Model ObserverWrapper VUndefined ∅ in
      let observerComponent :=
        set_displayName (prop baseComponent "displayName") observerComponent in
      let observerComponent :=
        if isFunctionNameConfigurable rt
        then set_name (o_name baseComponent) observerComponent
        else observerComponent in
      match (if useForwardRef then forwardRef observerComponent
             else Ok observerComponent) with
      | Throw e => Throw e
      | Ok observerComponent =>
          let observerComponent := React_memo observerComponent in
          Ok (copy_statics_to baseComponent observerComponent)
      end.

(** The component returned, if any. *)
Definition observerWithModel_ok (rt : Runtime) (Model : ModelClass)
    (baseComponent : JSObject) : option Component :=
  match observerWithModel rt Model baseComponent with
  | Ok c => Some c
  | Throw _ => None
  end.

(** The layers of a produced component, outermost first. *)
Inductive layer :=
| LMemo
| LForwardRef
| LFunction
| LReactive.

#[global] Instance layer_eq_dec : EqDecision layer.
Proof. solve_decision. Defined.

Fixpoint layers (c : Component) : list layer :=
  match c with
  | ObserverFn _ => [LReactive]
  | ObserverComponentFn _ W _ _ => LFunction :: layers W
  | ForwardRef r _ => LForwardRef :: layers r
  | Memo t _ _ => LMemo :: layers t
  end.

(** React tells a [memo] component, and this includes what [observer]
    returns, by its [$$typeof] tag. *)
Definition is_memo_component (o : JSObject) : Prop :=
  prop o "$$typeof" = REACT_MEMO_TYPE.

Definition is_forwardRef_component (o : JSObject) : Prop :=
  prop o "$$typeof" = REACT_FORWARD_REF_TYPE.

Definition name_of (c : Component) : jsval :=
  match c with
  | ObserverComponentFn _ _ n _ | Memo _ n _ => n
  | _ => VUndefined
  end.

(** A built component handed to [observerWithModel] as a render target;
    [self] is the reference to it. *)
Definition as_render_target (self : jsval) (c : Component) : JSObject :=
  {| o_self := self; o_name := name_of c; o_own := own_of c |}.

(** The composition as C7 words it: the memoization lies beneath the
    reference-forwarding layer, that is, no [memo] layer is above a
    [forwardRef] layer. *)
Definition memoization_beneath_forwarding (c : Component) : Prop :=
  ∀ i j, layers c !! i = Some LMemo → layers c !! j = Some LForwardRef → j < i.

(** A render target that is neither a [memo] nor a [forwardRef] component:
    the plain function components. *)
Definition is_plain_target (o : JSObject) : Prop :=
  ¬ is_memo_component o ∧ ¬ is_forwardRef_component o.

(** The value of [ObserverWrapper] when [observerWithModel] reaches
    [let observerComponent]: [observer(...)] with its label, its name and
    the statics of the base. *)
Definition build_ObserverWrapper (rt : Runtime) (base : JSObject)
    (render : jsval) : Component :=
  let W0 := set_displayName
              (labelled rt "ObserverWrapper" (prop base "displayName"))
              (observer render) in
  let W1 := if isFunctionNameConfigurable rt
            then set_name (labelled rt "Wrap" (o_name base)) W0
            else W0 in
  copy_statics_to base W1.

(** The function [observerComponent] with the labels it inherits, before
    [forwardRef] and [React.memo] are applied. *)
Definition build_observerComponent (rt : Runtime) (Model : ModelClass)
    (base : JSObject) (W : Component) : Component :=
  let f0 := set_displayName (prop base "displayName")
              (ObserverComponentFn Model W VUndefined ∅) in
  if isFunctionNameConfigurable rt then set_name (o_name base) f0 else f0.

(** The function inside a produced component, under its [memo] and
    [forwardRef] layers, and the [ObserverWrapper] it renders. *)
Fixpoint function_of (c : Component) : option Component :=
  match c with
  | ObserverFn _ => None
  | ObserverComponentFn _ _ _ _ => Some c
  | ForwardRef r _ => function_of r
  | Memo t _ _ => function_of t
  end.

Definition wrapper_of (c : Component) : option Component :=
  match function_of c with
  | Some (ObserverComponentFn _ W _ _) => Some W
  | _ => None
  end.

(** The render function an [ObserverWrapper] calls. *)
Definition render_of (W : Component) : option jsval :=
  match W with
  | Memo (ObserverFn r) _ _ => Some r
  | _ => None
  end.

(** The keys [copyStaticProperties] skips: the reserved names and the names
    of the properties of [Object.prototype]. *)
Definition skipped (key : string) : Prop :=
  key ∈ reserved ∨ is_Some (Object_prototype !! key).

#[global] Instance skipped_dec (key : string) : Decision (skipped key).
Proof. unfold skipped. apply _. Defined.

(** The state DISPOSED of an instance: the cells are still filled, the box
    is still there, and the model has been through [dispose]. *)
Definition disposed_instance (b m : addr) (st : Hooks * World) : Prop :=
  refProps st.1 = Some b ∧ refModel st.1 = Some m ∧
  (∃ held d, boxes st.2 !! b = Some held ∧ deps st.1 = Some d) ∧
  (∃ sc, models st.2 !! m = Some (disposed sc)).

(** * Properties *)

Section Properties.

Context (own_props : addr → gmap string jsval)
        (member_equals : jsval → IEqualsComparer).

(** ** The accessor before installation and after disposal *)

Lemma model_get_die getProps m key w sc :
  models w !! m = Some sc →
  get (s_model sc) = get_die →
  model_get own_props member_equals getProps m key w = (Throw (Error die_message), w).
Proof.
  intros Hm Hg. unfold model_get. by rewrite Hm, Hg.
Qed.

Lemma model_get_null getProps m key w sc :
  models w !! m = Some sc →
  get (s_model sc) = get_null →
  model_get own_props member_equals getProps m key w = (Throw (TypeError NotAFunction), w).
Proof.
  intros Hm Hg. unfold model_get. by rewrite Hm, Hg.
Qed.

Lemma dispose_lookup m w :
  models (dispose m w) !! m = disposed <$> models w !! m.
Proof.
  unfold dispose. destruct (models w !! m) as [sc|] eqn:Hm; simpl.
  - by rewrite lookup_insert_eq.
  - by rewrite Hm.
Qed.

(** C2: a model constructed directly, whose accessor was never installed,
    throws [Error('need to be reimplemented with useModel')] on every call
    of [get], for every key, and the call changes nothing. *)
Theorem get_before_installation_throws
    (Model : ModelClass) (getProps : World → option addr)
    (key : string) (w : World) :
  let '(m, w1) := construct_directly Model w in
  model_get own_props member_equals getProps m key w1
  = (Throw (Error "need to be reimplemented with useModel"), w1).
Proof.
  simpl. eapply model_get_die; [apply lookup_insert_eq | done].
Qed.

(** C8: [dispose] is idempotent.  A second call leaves the world as the
    first one left it: the [get] property still holds [null] and the map of
    computed values is still empty. *)
Theorem dispose_idempotent (m : addr) (w : World) :
  dispose m (dispose m w) = dispose m w
  ∧ models (dispose m (dispose m w)) !! m = disposed <$> models w !! m.
Proof.
  assert (dispose m (dispose m w) = dispose m w) as Hidem.
  { unfold dispose at 1. rewrite dispose_lookup.
    destruct (models w !! m) as [sc|] eqn:Hm; simpl.
    - unfold dispose. rewrite Hm. unfold set_scope; simpl.
      by rewrite insert_insert_eq.
    - unfold dispose. by rewrite Hm. }
  split; [done |]. rewrite Hidem. apply dispose_lookup.
Qed.

(** The claim of C3 fails as it is worded: the error after [dispose] is
    the runtime's TypeError for calling [null], not the [Error] thrown by
    [die] before installation. *)
Lemma get_after_dispose_is_not_die :
  let Model := {| super_annotations := None |} in
  let none : World → option addr := λ _, None in
  let props : addr → gmap string jsval := λ _, ∅ in
  let members : jsval → IEqualsComparer := λ _ _ _, true in
  let '(m, w1) := createModel Model empty_world in
  let '(m0, w0) := construct_directly Model empty_world in
  (model_get props members none m "value" (dispose m w1)).1
  ≠ (model_get props members none m0 "value" w0).1.
Proof. vm_compute. discriminate. Qed.

(** C3, amended: once [dispose] has run on a model, every later call of its
    [get] property throws (the runtime's TypeError, the property being
    [null]) and leaves the world as [dispose] left it. *)
Theorem get_after_dispose_throws
    (getProps : World → option addr) (m : addr) (keys : list string)
    (w : World) (sc : Scope) :
  models w !! m = Some sc →
  reads own_props member_equals getProps m keys (dispose m w)
  = (map (λ _, Throw (TypeError NotAFunction)) keys, dispose m w).
Proof.
  intros Hm. induction keys as [|k keys IH]; [done |]. simpl.
  rewrite (model_get_null getProps m k (dispose m w) (disposed sc)).
  - by rewrite IH.
  - by rewrite dispose_lookup, Hm.
  - done.
Qed.

(** ** The accessor while installed *)

Lemma set_scope_twice m sc1 sc2 w :
  set_scope m sc2 (set_scope m sc1 w) = set_scope m sc2 w.
Proof. unfold set_scope; simpl. by rewrite insert_insert_eq. Qed.

Lemma ComputedValue_get_fields c fresh :
  c_id (ComputedValue_get c fresh).2 = c_id c
  ∧ c_key (ComputedValue_get c fresh).2 = c_key c
  ∧ c_equals (ComputedValue_get c fresh).2 = c_equals c.
Proof.
  unfold ComputedValue_get.
  destruct (c_value c) as [old|]; [destruct (c_equals c old fresh) |]; done.
Qed.

(** The first read of a key: a computation is created for it. *)
Lemma accessor_first getProps m sc key w p :
  s_map sc !! key = None →
  getProps (set_scope m {| s_model := s_model sc;
                           s_map := <[key := {| c_id := next w; c_key := key;
                                                c_equals := equals_for member_equals (s_model sc) key;
                                                c_value := None |}]> (s_map sc) |}
                      (bump w)) = Some p →
  accessor own_props member_equals getProps m sc key w
  = (Ok (read_prop own_props p key),
     set_scope m
       {| s_model := s_model sc;
          s_map := <[key := {| c_id := next w; c_key := key;
                               c_equals := equals_for member_equals (s_model sc) key;
                               c_value := Some (read_prop own_props p key) |}]>
                     (s_map sc) |}
       (bump w)).
Proof.
  intros Hk Hp. unfold accessor. rewrite Hk, Hp. simpl.
  by rewrite set_scope_twice, insert_insert_eq.
Qed.

(** A later read of a key: the cached computation is read, none is created. *)
Lemma accessor_later getProps m sc key w p c :
  s_map sc !! key = Some c →
  getProps w = Some p →
  accessor own_props member_equals getProps m sc key w
  = (Ok (ComputedValue_get c (read_prop own_props p (c_key c))).1,
     set_scope m
       {| s_model := s_model sc;
          s_map := <[key := (ComputedValue_get c
                               (read_prop own_props p (c_key c))).2]>
                     (s_map sc) |}
       w).
Proof.
  intros Hk Hp. unfold accessor. rewrite Hk, Hp.
  by destruct (ComputedValue_get c (read_prop own_props p (c_key c))).
Qed.

Lemma accessor_frame getProps m sc key w :
  boxes (accessor own_props member_equals getProps m sc key w).2 = boxes w
  ∧ log (accessor own_props member_equals getProps m sc key w).2 = log w.
Proof.
  unfold accessor.
  destruct (s_map sc !! key) as [c|]; simpl;
    (match goal with |- context [getProps ?x] => destruct (getProps x) end);
    simpl; try done;
    (match goal with
     | |- context [ComputedValue_get ?a ?b] => destruct (ComputedValue_get a b)
     end); done.
Qed.

Lemma model_get_frame getProps m key w :
  boxes (model_get own_props member_equals getProps m key w).2 = boxes w
  ∧ log (model_get own_props member_equals getProps m key w).2 = log w.
Proof.
  unfold model_get. destruct (models w !! m) as [sc|]; [|done].
  destruct (get (s_model sc)); try done. apply accessor_frame.
Qed.

Lemma getProps_boxes h w w' :
  boxes w = boxes w' → getProps h w = getProps h w'.
Proof. unfold getProps. by intros ->. Qed.

(** ** The state MOUNTED is kept by every step *)

Lemma comparer_shallow_refl p : comparer_shallow own_props p p = true.
Proof. unfold comparer_shallow. by rewrite bool_decide_eq_true_2. Qed.

(** [comparer_shallow] decides: same object, or same own enumerable keys
    with identical values. *)
Lemma comparer_shallow_spec a b :
  comparer_shallow own_props a b = true
  ↔ a = b ∨ own_props a = own_props b.
Proof.
  unfold comparer_shallow. rewrite orb_true_iff, andb_true_iff.
  rewrite !bool_decide_eq_true, forallb_forall.
  split; (intros [Hab | H]; [by left | right]).
  - destruct H as [Hsize Hall].
    apply map_subseteq_size_eq; [| by rewrite Hsize].
    apply map_subseteq_spec. intros k v Hkv.
    specialize (Hall (k, v)). simpl in Hall.
    destruct (own_props b !! k) as [v'|].
    + f_equal. symmetry. eapply bool_decide_eq_true_1, Hall.
      apply list_elem_of_In. by apply elem_of_map_to_list.
    + exfalso. apply diff_false_true, Hall.
      apply list_elem_of_In. by apply elem_of_map_to_list.
  - rewrite H. split; [done |]. intros [k v] Hin. simpl.
    apply list_elem_of_In, elem_of_map_to_list in Hin. rewrite Hin.
    by apply bool_decide_eq_true_2.
Qed.

Lemma render_mounted Model b m props ref h w :
  refProps h = Some b → refModel h = Some m →
  observerComponent_render Model props ref h w
  = ({| e_innerRef := ref; e_model := m; e_props := b |},
     {| refProps := Some b; refModel := Some m; deps := deps h |}, w).
Proof. intros Hb Hm. unfold observerComponent_render. by rewrite Hb, Hm. Qed.

Lemma mount_mounted Model props ref w :
  mounted own_props member_equals Model (next w) (S (next w))
    (mount own_props Model props ref w).
Proof.
  unfold mounted, mount, render_pass, observerComponent_render,
    observerComponent_commit, sync_effect, runInAction; simpl.
  rewrite lookup_insert_eq, comparer_shallow_refl. simpl.
  split_and!; [done | done | |].
  - exists props, props. rewrite lookup_insert_eq.
    split_and!; [done | done | apply comparer_shallow_refl].
  - eexists. rewrite lookup_insert_eq. split_and!; [done | done |].
    intros k c. simpl. by rewrite lookup_empty.
Qed.

Lemma read_mounted Model b m key h w :
  mounted own_props member_equals Model b m (h, w) →
  mounted own_props member_equals Model b m
    (h, (model_get own_props member_equals (getProps h) m key w).2).
Proof.
  intros (Hb & Hm & (held & d & Hheld & Hd & Hsh) & (sc & Hsc & Hmodel & Hmap)).
  simpl in *.
  destruct (model_get_frame (getProps h) m key w) as [Hboxes Hlog].
  unfold mounted; simpl. split_and!; [done | done | |].
  { exists held, d. by rewrite Hboxes. }
  unfold model_get. rewrite Hsc, Hmodel. simpl.
  destruct (s_map sc !! key) as [c|] eqn:Hk.
  - erewrite accessor_later; [| done |].
    2:{ unfold getProps. rewrite Hb. simpl. apply Hheld. }
    simpl. eexists. rewrite lookup_insert_eq. split_and!; [done | done |].
    simpl. intros k c'. rewrite lookup_insert. case_decide as Hkk.
    + intros [= <-]. subst k.
      destruct (Hmap key c Hk) as [Hkey Heq].
      destruct (ComputedValue_get_fields c (read_prop own_props held (c_key c)))
        as (_ & -> & ->).
      by rewrite Hmodel in *.
    + intros Hc'. rewrite Hmodel in *. by apply Hmap.
  - erewrite accessor_first; [| done |].
    2:{ unfold getProps. rewrite Hb. simpl. apply Hheld. }
    simpl. eexists. rewrite lookup_insert_eq. split_and!; [done | done |].
    simpl. intros k c'. rewrite lookup_insert. case_decide as Hkk.
    + intros [= <-]. by subst k.
    + intros Hc'. rewrite Hmodel in *. by apply Hmap.
Qed.

(** A render of a mounted instance, computed. *)
Lemma rerender_eq Model b m props ref h w held d :
  refProps h = Some b → refModel h = Some m →
  boxes w !! b = Some held → deps h = Some d →
  render_pass own_props Model props ref (h, w)
  = if bool_decide (d = props)
    then ({| refProps := Some b; refModel := Some m; deps := Some d |}, w)
    else ({| refProps := Some b; refModel := Some m; deps := Some props |},
          if comparer_shallow own_props props held
          then emit ActionEnd (emit ActionStart w)
          else emit ActionEnd (box_set b props (emit ActionStart w))).
Proof.
  intros Hb Hm Hheld Hd. unfold render_pass. simpl.
  rewrite (render_mounted Model b m props ref h w Hb Hm).
  unfold observerComponent_commit. simpl. rewrite Hd.
  case_bool_decide; simpl; [done |].
  unfold sync_effect, runInAction. simpl. rewrite Hheld.
  by destruct (comparer_shallow own_props props held).
Qed.

Lemma rerender_mounted Model b m props ref st :
  mounted own_props member_equals Model b m st →
  mounted own_props member_equals Model b m (render_pass own_props Model props ref st)
  ∧ dom (boxes (render_pass own_props Model props ref st).2) = dom (boxes st.2)
  ∧ models (render_pass own_props Model props ref st).2 = models st.2
  ∧ next (render_pass own_props Model props ref st).2 = next st.2.
Proof.
  destruct st as [h w].
  intros (Hb & Hm & (held & d & Hheld & Hd & Hsh) & Hsc). simpl in *.
  rewrite (rerender_eq Model b m props ref h w held d Hb Hm Hheld Hd).
  case_bool_decide as Hdp.
  - split_and!; try done. unfold mounted; simpl.
    split_and!; [done | done | by exists held, d | done].
  - destruct (comparer_shallow own_props props held) eqn:Hcmp.
    + split_and!; try done. unfold mounted; simpl.
      split_and!; [done | done | by exists held, props | done].
    + split_and!; try done.
      * unfold mounted; simpl. split_and!; [done | done | | done].
        exists props, props. rewrite lookup_insert_eq.
        split_and!; [done | done | apply comparer_shallow_refl].
      * simpl. rewrite dom_insert_L.
        apply elem_of_dom_2 in Hheld. set_solver.
Qed.

Lemma step_mounted Model b m st s :
  mounted own_props member_equals Model b m st →
  mounted own_props member_equals Model b m (do_step own_props member_equals Model st s)
  ∧ dom (boxes (do_step own_props member_equals Model st s).2) = dom (boxes st.2)
  ∧ dom (models (do_step own_props member_equals Model st s).2) = dom (models st.2).
Proof.
  intros Hst. destruct s as [props ref | key]; simpl.
  - destruct (rerender_mounted Model b m props ref st Hst)
      as (H1 & H2 & H3 & _).
    by rewrite H3.
  - destruct st as [h w]. pose proof Hst as (Hb & Hm & _ & (sc & Hsc & Hget & _)).
    simpl in *. rewrite Hm. simpl.
    split_and!.
    + by apply read_mounted.
    + by destruct (model_get_frame (getProps h) m key w) as [-> _].
    + pose proof (read_mounted Model b m key h w Hst)
        as (_ & _ & _ & (sc' & Hsc' & _)). simpl in Hsc'.
      unfold model_get in *. rewrite Hsc, Hget in *.
      unfold accessor in *.
      apply elem_of_dom_2 in Hsc.
      destruct (s_map sc !! key); simpl in *;
        (match goal with |- context [getProps h ?x] => destruct (getProps h x) end);
        simpl; rewrite ?dom_insert_L;
        try (match goal with
             | |- context [ComputedValue_get ?a ?b] =>
                 destruct (ComputedValue_get a b)
             end); simpl; rewrite ?dom_insert_L; set_solver.
Qed.

Lemma run_mounted Model b m st tr :
  mounted own_props member_equals Model b m st →
  mounted own_props member_equals Model b m (run own_props member_equals Model st tr)
  ∧ dom (boxes (run own_props member_equals Model st tr).2) = dom (boxes st.2)
  ∧ dom (models (run own_props member_equals Model st tr).2) = dom (models st.2).
Proof.
  revert st. induction tr as [|s tr IH]; intros st Hst; [done |].
  simpl. destruct (step_mounted Model b m st s Hst) as (H1 & H2 & H3).
  destruct (IH _ H1) as (H4 & H5 & H6).
  split_and!; [done | by rewrite H5 | by rewrite H6].
Qed.

Lemma new_events_app w w' l :
  log w' = (log w ++ l)%list → new_events w w' = l.
Proof. unfold new_events. intros ->. by rewrite drop_app_length. Qed.

(** C5: the box and the model created by the first render are the ones every
    later render of the instance uses.  Whatever renders and reads follow
    the first render, the two cells still hold the same addresses, both
    objects are still in their stores, no other box or model has been
    allocated, and a further render returns an element built from exactly
    this model and this box without changing the world. *)
Theorem box_and_model_identity_retained
    (Model : ModelClass) (props0 : addr) (ref0 : jsval) (w0 : World)
    (tr : list step) :
  let st1 := mount own_props Model props0 ref0 w0 in
  let st := run own_props member_equals Model st1 tr in
  ∃ b m,
    refProps st1.1 = Some b ∧ refModel st1.1 = Some m
    ∧ refProps st.1 = Some b ∧ refModel st.1 = Some m
    ∧ is_Some (boxes st.2 !! b) ∧ is_Some (models st.2 !! m)
    ∧ dom (boxes st.2) = dom (boxes st1.2)
    ∧ dom (models st.2) = dom (models st1.2)
    ∧ ∀ props ref,
        observerComponent_render Model props ref st.1 st.2
        = ({| e_innerRef := ref; e_model := m; e_props := b |},
           {| refProps := Some b; refModel := Some m; deps := deps st.1 |},
           st.2).
Proof.
  intros st1 st. exists (next w0), (S (next w0)).
  pose proof (mount_mounted Model props0 ref0 w0) as H1. fold st1 in H1.
  destruct (run_mounted Model _ _ st1 tr H1) as (H2 & H3 & H4). fold st in H2, H3, H4.
  destruct H1 as (Hb1 & Hm1 & _).
  destruct H2 as (Hb & Hm & (held & d & Hheld & _) & (sc & Hsc & _)).
  split_and!; try done; try (by eexists).
  intros props ref. by apply render_mounted.
Qed.

(** C4: on a render of a mounted instance, the box is written exactly when
    the new props are not shallow-equal to the snapshot it holds.  If they
    are shallow-equal, the box keeps its value and the reactive engine
    receives no write; otherwise the engine receives the single write
    [box.set(props)] between the start and the end of one action, and the
    box holds the new props. *)
Theorem box_rewritten_iff_not_shallow_equal
    (Model : ModelClass) (props0 : addr) (ref0 : jsval) (w0 : World)
    (tr : list step) (props : addr) (ref : jsval) :
  let st := run own_props member_equals Model (mount own_props Model props0 ref0 w0) tr in
  let st' := render_pass own_props Model props ref st in
  ∃ b held,
    refProps st.1 = Some b ∧ boxes st.2 !! b = Some held ∧
    if comparer_shallow own_props props held
    then boxes st'.2 = boxes st.2
         ∧ (new_events st.2 st'.2 = []
            ∨ new_events st.2 st'.2 = [ActionStart; ActionEnd])
    else boxes st'.2 = <[b := props]> (boxes st.2)
         ∧ new_events st.2 st'.2 = [ActionStart; BoxSet b props; ActionEnd].
Proof.
  intros st st'.
  pose proof (mount_mounted Model props0 ref0 w0) as H1.
  destruct (run_mounted Model _ _ _ tr H1) as (H2 & _). fold st in H2.
  destruct H2 as (Hb & Hm & (held & d & Hheld & Hd & Hsh) & _).
  exists (next w0), held. split_and!; [done | done |].
  subst st'. destruct st as [h w]. simpl in *.
  rewrite (rerender_eq Model _ _ props ref h w held d Hb Hm Hheld Hd).
  case_bool_decide as Hdp.
  - subst d. rewrite Hsh. simpl. split; [done |]. left.
    apply new_events_app. by rewrite app_nil_r.
  - destruct (comparer_shallow own_props props held); simpl.
    + split; [done |]. right. apply new_events_app.
      unfold emit; simpl. by rewrite <- app_assoc.
    + split; [done |]. apply new_events_app.
      unfold box_set, emit; simpl. by rewrite <- !app_assoc.
Qed.

(** ** The cache of computations *)

Lemma read_cache_dom Model b m key h w :
  mounted own_props member_equals Model b m (h, w) →
  dom (cache_of m (model_get own_props member_equals (getProps h) m key w).2)
  = {[key]} ∪ dom (cache_of m w).
Proof.
  intros (Hb & Hm & (held & d & Hheld & _) & (sc & Hsc & Hget & _)).
  simpl in *. unfold cache_of at 2. rewrite Hsc. simpl.
  assert (getProps h w = Some held) as Hgp.
  { unfold getProps. by rewrite Hb. }
  unfold model_get. rewrite Hsc, Hget. simpl.
  destruct (s_map sc !! key) as [c|] eqn:Hk.
  - erewrite accessor_later; [| done | done]. simpl.
    unfold cache_of; simpl. rewrite lookup_insert_eq. simpl.
    by rewrite dom_insert_L.
  - erewrite accessor_first; [| done |].
    2:{ by rewrite <- Hgp. }
    unfold cache_of; simpl. rewrite lookup_insert_eq. simpl.
    by rewrite dom_insert_L.
Qed.

Lemma run_cache_dom Model b m st tr :
  mounted own_props member_equals Model b m st →
  dom (cache_of m (run own_props member_equals Model st tr).2)
  = dom (cache_of m st.2) ∪ list_to_set (read_keys tr).
Proof.
  revert st. induction tr as [|s tr IH]; intros st Hst; simpl.
  { set_solver. }
  destruct (step_mounted Model b m st s Hst) as (H1 & _).
  rewrite (IH _ H1). destruct s as [props ref | key]; simpl.
  - destruct (rerender_mounted Model b m props ref st Hst) as (_ & _ & Hmod & _).
    unfold cache_of. by rewrite Hmod.
  - destruct st as [h w]. pose proof Hst as (_ & Hm & _). simpl in *.
    rewrite Hm. simpl. rewrite (read_cache_dom Model b m key h w Hst).
    set_solver.
Qed.

Lemma mount_cache_empty Model props ref w :
  cache_of (S (next w)) (mount own_props Model props ref w).2 = ∅.
Proof.
  unfold cache_of, mount, render_pass, observerComponent_render,
    observerComponent_commit, sync_effect, runInAction; simpl.
  rewrite lookup_insert_eq, comparer_shallow_refl. simpl.
  by rewrite lookup_insert_eq.
Qed.

(** The states reached from the first render: the instance is mounted, and
    the keys of the cache are the keys read so far. *)
Lemma reachable_state Model props0 ref0 w0 tr :
  let st := run own_props member_equals Model (mount own_props Model props0 ref0 w0) tr in
  ∃ held sc,
    refModel st.1 = Some (S (next w0))
    ∧ getProps st.1 st.2 = Some held
    ∧ models st.2 !! S (next w0) = Some sc
    ∧ s_model sc = {| annotations := super_annotations Model;
                      get := get_accessor |}
    ∧ (∀ k c, s_map sc !! k = Some c →
              c_key c = k ∧ c_equals c = equals_for member_equals (s_model sc) k)
    ∧ dom (s_map sc) = list_to_set (read_keys tr).
Proof.
  intros st.
  pose proof (mount_mounted Model props0 ref0 w0) as H1.
  pose proof (run_cache_dom Model _ _ _ tr H1) as Hdom.
  rewrite mount_cache_empty in Hdom.
  destruct (run_mounted Model _ _ _ tr H1) as (H2 & _).
  fold st in H2, Hdom.
  destruct H2 as (Hb & Hm & (held & d & Hheld & _) & (sc & Hsc & Hmodel & Hmap)).
  exists held, sc. split_and!; try done.
  - unfold getProps. by rewrite Hb.
  - unfold cache_of in Hdom. rewrite Hsc in Hdom. simpl in Hdom.
    rewrite Hdom. set_solver.
Qed.


(** C10, amended: reading a key under which the current snapshot has no
    property, own or inherited, never fails, and nothing checks the key
    against the declared property shape.  The call returns a value, and the
    key has a computation afterwards.  On the first read of the key the
    computation is created as for any other key and the value returned is
    undefined.  On a later read the value is undefined, unless the
    comparator of the key considers the value the computation holds equal
    to undefined: then that held value is returned.  With the default
    comparator the value is always undefined. *)
Theorem read_of_absent_key_is_undefined_or_held
    (Model : ModelClass) (props0 : addr) (ref0 : jsval) (w0 : World)
    (tr : list step) (key : string) (m held : addr) :
  let st := run own_props member_equals Model
              (mount own_props Model props0 ref0 w0) tr in
  let equals := equals_for member_equals (new_Model Model) key in
  refModel st.1 = Some m →
  getProps st.1 st.2 = Some held →
  absent own_props held key →
  ∃ v w',
    model_get own_props member_equals (getProps st.1) m key st.2 = (Ok v, w')
    ∧ is_Some (cache_of m w' !! key)
    ∧ (key ∉ read_keys tr →
       v = VUndefined
       ∧ cache_of m w' !! key
         = Some {| c_id := next st.2; c_key := key; c_equals := equals;
                   c_value := Some VUndefined |})
    ∧ (v = VUndefined
       ∨ ∃ c old,
           cache_of m st.2 !! key = Some c ∧ c_equals c = equals
           ∧ c_value c = Some old ∧ equals old VUndefined = true
           ∧ v = old)
    ∧ (equals = comparer_identity → v = VUndefined).
Proof.
  intros st equals Hm Hheld [Hown Hproto].
  destruct (reachable_state Model props0 ref0 w0 tr)
    as (held' & sc & Hm' & Hgp & Hsc & Hmodel & Hmap & Hdom).
  fold st in Hm', Hgp, Hsc, Hdom.
  rewrite Hm in Hm'. injection Hm' as ->.
  rewrite Hheld in Hgp. injection Hgp as <-.
  assert (read_prop own_props held key = VUndefined) as Hread.
  { unfold read_prop, literal_get. by rewrite Hown, Hproto. }
  assert (equals_for member_equals (s_model sc) key = equals) as Heq.
  { unfold equals, equals_for. by rewrite Hmodel. }
  unfold model_get. rewrite Hsc, Hmodel. simpl.
  destruct (s_map sc !! key) as [c|] eqn:Hk.
  - destruct (Hmap key c Hk) as [Hck Hce]. rewrite Heq in Hce.
    erewrite accessor_later; [| by rewrite Hmodel in * | done].
    rewrite Hck, Hread. eexists _, _. split; [done |].
    unfold cache_of; simpl. rewrite lookup_insert_eq. simpl.
    rewrite lookup_insert_eq, Hsc. simpl. rewrite Hk.
    split_and!; [by eexists | | |].
    + intros Hnot. exfalso. apply Hnot.
      apply elem_of_dom_2 in Hk. rewrite Hdom in Hk.
      by apply elem_of_list_to_set in Hk.
    + unfold ComputedValue_get. rewrite Hce.
      destruct (c_value c) as [old|] eqn:Hold; [| by left].
      destruct (equals old VUndefined) eqn:Hequal; simpl; [| by left].
      right. by exists c, old.
    + intros Hid. unfold ComputedValue_get. rewrite Hce, Hid.
      destruct (c_value c) as [old|]; [|done].
      unfold comparer_identity, strict_eq.
      case_bool_decide; simpl; done.
  - erewrite accessor_first; [| by rewrite Hmodel in * |].
    2:{ rewrite <- Hheld. by rewrite Hmodel in *. }
    rewrite Hread. eexists _, _. split; [done |].
    unfold cache_of; simpl. rewrite lookup_insert_eq. simpl.
    rewrite lookup_insert_eq.
    split_and!; [by eexists | | by left | done].
    intros _. split; [done |]. by rewrite Heq.
Qed.

(** Unmounting disposes the model of the instance: reading through it
    afterwards throws. *)
Lemma read_after_unmount Model props0 ref0 w0 tr key :
  let st := observerComponent_unmount
              (run own_props member_equals Model
                 (mount own_props Model props0 ref0 w0) tr) in
  ∃ m, refModel st.1 = Some m
       ∧ model_get own_props member_equals (getProps st.1) m key st.2
         = (Throw (TypeError NotAFunction), st.2).
Proof.
  pose proof (mount_mounted Model props0 ref0 w0) as H1.
  destruct (run_mounted Model _ _ _ tr H1) as ((_ & Hm & _ & (sc & Hsc & _)) & _).
  simpl. unfold observerComponent_unmount. rewrite Hm. simpl.
  eexists. split; [done |].
  apply (model_get_null _ _ _ _ (disposed sc)); [|done].
  by rewrite dispose_lookup, Hsc.
Qed.

End Properties.

(** ** Wrap time *)

Section WrapTime.

Context (rt : Runtime) (Model : ModelClass).

Lemma ReactMemoSymbol_eq : ReactMemoSymbol rt = REACT_MEMO_TYPE.
Proof. unfold ReactMemoSymbol. by destruct (hasSymbol rt). Qed.

Lemma ReactForwardRefSymbol_eq :
  ReactForwardRefSymbol rt = REACT_FORWARD_REF_TYPE.
Proof. unfold ReactForwardRefSymbol. by destruct (hasSymbol rt). Qed.

Lemma React_memo_is_memo self type :
  is_memo_component (as_render_target self (React_memo type)).
Proof. done. Qed.

Lemma observer_is_memo self render :
  is_memo_component (as_render_target self (observer render)).
Proof. done. Qed.

(** C6: a render target that is a [memo] component (made by [React.memo] or
    by [observer]) makes [observerWithModel] throw its descriptive [Error];
    the call returns no component, so nothing is ever rendered. *)
Theorem double_wrap_throws_at_wrap_time (baseComponent : JSObject) :
  is_memo_component baseComponent →
  observerWithModel rt Model baseComponent = Throw (Error memo_message).
Proof.
  unfold is_memo_component, observerWithModel. intros ->.
  rewrite ReactMemoSymbol_eq. unfold strict_eq.
  by rewrite bool_decide_eq_true_2.
Qed.

(** What [observerWithModel] returns for a [forwardRef] component. *)
Lemma observerWithModel_forwardRef (baseComponent : JSObject) :
  is_forwardRef_component baseComponent →
  observerWithModel rt Model baseComponent
  = if is_function (prop baseComponent "render")
    then
      let W0 := set_displayName
                  (labelled rt "ObserverWrapper"
                     (prop baseComponent "displayName"))
                  (observer (prop baseComponent "render")) in
      let W1 := if isFunctionNameConfigurable rt
                then set_name (labelled rt "Wrap" (o_name baseComponent)) W0
                else W0 in
      let W := copy_statics_to baseComponent W1 in
      let f0 := set_displayName (prop baseComponent "displayName")
                  (ObserverComponentFn Model W VUndefined ∅) in
      let f := if isFunctionNameConfigurable rt
               then set_name (o_name baseComponent) f0 else f0 in
      Ok (copy_statics_to baseComponent
            (React_memo
               (ForwardRef f {["$$typeof" := REACT_FORWARD_REF_TYPE]})))
    else Throw (Error render_message).
Proof.
  unfold is_forwardRef_component, observerWithModel. intros Htag.
  rewrite ReactMemoSymbol_eq, ReactForwardRefSymbol_eq, Htag. simpl.
  destruct (is_function (prop baseComponent "render")); simpl; [|done].
  by destruct (isFunctionNameConfigurable rt).
Qed.

(** C7, amended: a [forwardRef] render target is detected by its tag.  When
    its [render] property is not a function, [observerWithModel] throws.
    Otherwise the component returned is [memo(forwardRef(observerComponent))]:
    [forwardRef] receives the plain function [observerComponent] and
    [React.memo] is applied on top of the forwarding layer; the reactive
    boundary [observer(...)], which calls the unwrapped [render], is what
    [observerComponent] renders. *)
Theorem forwardRef_target_is_unwrapped_and_memo_wraps_forwardRef
    (baseComponent : JSObject) :
  is_forwardRef_component baseComponent →
  match observerWithModel rt Model baseComponent with
  | Throw e =>
      is_function (prop baseComponent "render") = false
      ∧ e = Error render_message
  | Ok c =>
      is_function (prop baseComponent "render") = true
      ∧ (∃ wname wown fname fown frown own,
            c = Memo
                  (ForwardRef
                     (ObserverComponentFn Model
                        (Memo (ObserverFn (prop baseComponent "render"))
                              wname wown)
                        fname fown)
                     frown)
                  VUndefined own)
      ∧ layers c = [LMemo; LForwardRef; LFunction; LMemo; LReactive]
  end.
Proof.
  intros Hfr. rewrite (observerWithModel_forwardRef baseComponent Hfr).
  destruct (is_function (prop baseComponent "render")); [|done].
  simpl. destruct (isFunctionNameConfigurable rt); simpl;
    (split_and!; [done | by repeat eexists | done]).
Qed.

End WrapTime.

(** ** copyStaticProperties *)

Lemma copy_key_lookup (base target : gmap string jsval) (a key : string) :
  copy_key base target a !! key
  = if bool_decide (a = key) && negb (truthy (literal_get hoistBlackList key))
    then from_option Some (target !! key) (base !! key)
    else target !! key.
Proof.
  unfold copy_key. case_bool_decide as Hak; simpl.
  - subst a. destruct (truthy (literal_get hoistBlackList key)); simpl; [done |].
    destruct (base !! key) as [d|]; simpl; [|done].
    by rewrite lookup_insert_eq.
  - destruct (negb (truthy (literal_get hoistBlackList a))); [|done].
    destruct (base !! a) as [d|]; [|done].
    by rewrite lookup_insert_ne.
Qed.

Lemma foldl_copy_key_lookup (base : gmap string jsval) (l : list string)
    (target : gmap string jsval) (key : string) :
  foldl (copy_key base) target l !! key
  = if bool_decide (key ∈ l) && negb (truthy (literal_get hoistBlackList key))
    then from_option Some (target !! key) (base !! key)
    else target !! key.
Proof.
  revert target. induction l as [|a l IH]; intros target; cbn [foldl].
  { rewrite (bool_decide_eq_false_2 (key ∈ [])); [done | apply not_elem_of_nil]. }
  rewrite IH, copy_key_lookup.
  destruct (truthy (literal_get hoistBlackList key)); simpl.
  { by rewrite !andb_false_r. }
  rewrite !andb_true_r.
  destruct (decide (a = key)) as [->|Hne].
  - rewrite (bool_decide_eq_true_2 (key = key)) by done.
    rewrite (bool_decide_eq_true_2 (key ∈ key :: l)) by (apply elem_of_cons; by left).
    destruct (bool_decide (key ∈ l)); [|done].
    by destruct (base !! key).
  - rewrite (bool_decide_eq_false_2 (a = key)) by done.
    destruct (decide (key ∈ l)) as [Hin|Hnin].
    + rewrite (bool_decide_eq_true_2 (key ∈ l)) by done.
      rewrite (bool_decide_eq_true_2 (key ∈ a :: l)); [done |].
      apply elem_of_cons; by right.
    + rewrite (bool_decide_eq_false_2 (key ∈ l)) by done.
      rewrite (bool_decide_eq_false_2 (key ∈ a :: l)); [done |].
      intros [?|?]%elem_of_cons; congruence.
Qed.

(** What [copyStaticProperties] leaves under each key of the target. *)
Lemma copyStaticProperties_lookup (base target : gmap string jsval)
    (key : string) :
  copyStaticProperties base target !! key
  = if truthy (literal_get hoistBlackList key)
    then target !! key
    else from_option Some (target !! key) (base !! key).
Proof.
  unfold copyStaticProperties. rewrite foldl_copy_key_lookup.
  destruct (truthy (literal_get hoistBlackList key)); simpl.
  { by rewrite andb_false_r. }
  rewrite andb_true_r. case_bool_decide as Hin; [done |].
  destruct (base !! key) as [d|] eqn:Hb; [|done].
  exfalso. apply Hin. unfold Object_keys.
  apply list_elem_of_fmap. exists (key, d). split; [done |].
  by apply elem_of_map_to_list.
Qed.

(** The names [hoistBlackList[key]] is truthy for: the five it lists, and
    the ones the literal inherits. *)
Lemma hoistBlackList_truthy (key : string) :
  truthy (literal_get hoistBlackList key) = true
  ↔ key ∈ reserved ∨ is_Some (Object_prototype !! key).
Proof.
  unfold literal_get, hoistBlackList, reserved. simpl.
  rewrite !lookup_insert. rewrite lookup_empty.
  repeat case_decide; subst; simpl.
  all: try (split; [intros _; left; set_solver | done]).
  split.
  - intros Ht. right.
    destruct (Object_prototype !! key) as [v|]; [by eexists | done].
  - intros [Hin|[v Hv]].
    + set_solver.
    + rewrite Hv. simpl. revert Hv. unfold Object_prototype. simpl.
      rewrite !lookup_insert, lookup_empty.
      repeat case_decide; by intros [= <-].
Qed.

(** The reserved names are never overwritten. *)
Lemma reserved_not_overwritten (base target : gmap string jsval)
    (key : string) :
  key ∈ reserved →
  copyStaticProperties base target !! key = target !! key.
Proof.
  intros Hin. rewrite copyStaticProperties_lookup.
  assert (truthy (literal_get hoistBlackList key) = true) as ->; [|done].
  apply hoistBlackList_truthy. by left.
Qed.

(** A static field is copied when its name is neither reserved nor the name
    of a property of [Object.prototype]. *)
Lemma static_copied (base target : gmap string jsval) (key : string)
    (v : jsval) :
  key ∉ reserved → Object_prototype !! key = None →
  base !! key = Some v →
  copyStaticProperties base target !! key = Some v.
Proof.
  intros Hres Hproto Hb. rewrite copyStaticProperties_lookup, Hb.
  destruct (truthy (literal_get hoistBlackList key)) eqn:Ht; [|done].
  apply hoistBlackList_truthy in Ht as [?|[? ?]]; [done | congruence].
Qed.

(** What [observerWithModel] returns is itself a [memo] component: the copy
    of the statics cannot change its tag. *)
Lemma observerWithModel_returns_memo (rt : Runtime) (Model : ModelClass)
    (baseComponent : JSObject) (c : Component) (self : jsval) :
  observerWithModel rt Model baseComponent = Ok c →
  is_memo_component (as_render_target self c).
Proof.
  unfold observerWithModel.
  destruct (truthy (ReactMemoSymbol rt) && _); [done |].
  destruct (_ && negb _); [done |].
  match goal with
  | |- context [if ?b then forwardRef ?x else Ok ?y] =>
      destruct (if b then forwardRef x else Ok y) as [c0|e]
  end; [|done].
  intros [= <-]. unfold is_memo_component, prop, as_render_target; simpl.
  rewrite reserved_not_overwritten; [done |].
  unfold reserved. set_solver.
Qed.

(** C9 fails on this input: a static field named [toString], which is not a
    reserved name, is attached to the render target and is not copied,
    neither by [copyStaticProperties] nor onto the component returned by
    [observerWithModel]; [hoistBlackList['toString']] is the function the
    literal inherits from [Object.prototype], which is truthy.  The field
    [defaultProps] next to it is copied. *)
Theorem toString_static_is_not_copied :
  let statics : gmap string jsval :=
    {[ "toString" := VFun 1; "defaultProps" := VObj 2 ]} in
  let target : gmap string jsval := {[ "$$typeof" := REACT_MEMO_TYPE ]} in
  let rt := {| hasSymbol := true; isFunctionNameConfigurable := true;
               ToString := λ _, "Card" |} in
  let base := {| o_self := VFun 0; o_name := VStr "Card";
                 o_own := statics |} in
  ("toString" ∉ reserved)
  ∧ statics !! "toString" = Some (VFun 1)
  ∧ copyStaticProperties statics target !! "toString" = None
  ∧ copyStaticProperties statics target !! "defaultProps" = Some (VObj 2)
  ∧ (own_of <$> observerWithModel_ok rt {| super_annotations := None |} base)
      = Some {[ "$$typeof" := REACT_MEMO_TYPE; "defaultProps" := VObj 2 ]}.
Proof.
  intros statics target rt base. split_and!.
  - unfold reserved. set_solver.
  - done.
  - rewrite copyStaticProperties_lookup. done.
  - rewrite copyStaticProperties_lookup. done.
  - vm_compute. done.
Qed.

(** The host refuses the composition in which [forwardRef] receives a
    [memo] component. *)
Lemma forwardRef_rejects_memo (type : Component) :
  forwardRef (React_memo type) = Throw (Error forwardRef_message).
Proof. done. Qed.

(** C7 fails as it is worded: for a [forwardRef] render target the component
    returned has [React.memo] as its outermost layer, above the forwarding
    layer, so the memoization is not beneath the reference-forwarding
    layer. *)
Lemma memo_is_above_forwardRef :
  let rt := {| hasSymbol := true; isFunctionNameConfigurable := true;
               ToString := λ _, "" |} in
  let base := {| o_self := VObj 1; o_name := VUndefined;
                 o_own := {[ "$$typeof" := REACT_FORWARD_REF_TYPE;
                             "render" := VFun 2 ]} |} in
  ∃ c, observerWithModel rt {| super_annotations := None |} base = Ok c
       ∧ layers c = [LMemo; LForwardRef; LFunction; LMemo; LReactive]
       ∧ ¬ memoization_beneath_forwarding c.
Proof.
  intros rt base. eexists. split; [| split].
  - rewrite observerWithModel_forwardRef by done. reflexivity.
  - reflexivity.
  - intros H. specialize (H 0 1 eq_refl eq_refl). lia.
Qed.

(** ** Instances of the theorems that have hypotheses *)

Lemma get_after_dispose_throws_witness :
  let own_props : addr → gmap string jsval := λ _, ∅ in
  let members : jsval → IEqualsComparer := λ _ _ _, true in
  let w1 := (createModel {| super_annotations := None |} empty_world).2 in
  reads own_props members (λ _, None) 0 ["value"; "text"] (dispose 0 w1)
  = ([Throw (TypeError NotAFunction); Throw (TypeError NotAFunction)],
     dispose 0 w1).
Proof.
  intros own_props members w1.
  apply (get_after_dispose_throws own_props members (λ _, None) 0
           ["value"; "text"] w1
           {| s_model := {| annotations := None; get := get_accessor |};
              s_map := ∅ |}).
  reflexivity.
Defined.

Lemma double_wrap_throws_at_wrap_time_witness :
  let rt := {| hasSymbol := true; isFunctionNameConfigurable := true;
               ToString := λ _, "" |} in
  observerWithModel rt {| super_annotations := None |}
    (as_render_target (VObj 9) (observer (VFun 1)))
  = Throw (Error memo_message).
Proof.
  intros rt.
  apply (double_wrap_throws_at_wrap_time rt {| super_annotations := None |}
           (as_render_target (VObj 9) (observer (VFun 1)))).
  reflexivity.
Defined.

Lemma forwardRef_target_witness :
  let rt := {| hasSymbol := true; isFunctionNameConfigurable := true;
               ToString := λ _, "" |} in
  let Model := {| super_annotations := None |} in
  let base := {| o_self := VObj 1; o_name := VUndefined;
                 o_own := {[ "$$typeof" := REACT_FORWARD_REF_TYPE;
                             "render" := VFun 2 ]} |} in
  match observerWithModel rt Model base with
  | Throw e =>
      is_function (prop base "render") = false ∧ e = Error render_message
  | Ok c =>
      is_function (prop base "render") = true
      ∧ (∃ wname wown fname fown frown own,
            c = Memo
                  (ForwardRef
                     (ObserverComponentFn Model
                        (Memo (ObserverFn (prop base "render")) wname wown)
                        fname fown)
                     frown)
                  VUndefined own)
      ∧ layers c = [LMemo; LForwardRef; LFunction; LMemo; LReactive]
  end.
Proof.
  intros rt Model base.
  apply (forwardRef_target_is_unwrapped_and_memo_wraps_forwardRef
           rt Model base).
  reflexivity.
Defined.

Lemma read_of_absent_key_witness :
  let own_props : addr → gmap string jsval :=
    λ p, if decide (p = 0) then {[ "text" := VStr "a" ]}
         else {[ "value" := VNum 11 ]} in
  let members : jsval → IEqualsComparer := λ _ _ _, true in
  let Model := {| super_annotations := None |} in
  let tr := [Read "text"; Render 5 VNull] in
  let st := run own_props members Model
              (mount own_props Model 0 VNull empty_world) tr in
  let equals := equals_for members (new_Model Model) "text" in
  ∃ v w',
    model_get own_props members (getProps st.1) 1 "text" st.2 = (Ok v, w')
    ∧ is_Some (cache_of 1 w' !! "text")
    ∧ ("text" ∉ read_keys tr →
       v = VUndefined
       ∧ cache_of 1 w' !! "text"
         = Some {| c_id := next st.2; c_key := "text"; c_equals := equals;
                   c_value := Some VUndefined |})
    ∧ (v = VUndefined
       ∨ ∃ c old,
           cache_of 1 st.2 !! "text" = Some c ∧ c_equals c = equals
           ∧ c_value c = Some old ∧ equals old VUndefined = true
           ∧ v = old)
    ∧ (equals = comparer_identity → v = VUndefined).
Proof.
  intros own_props members Model tr st equals.
  apply (read_of_absent_key_is_undefined_or_held own_props members Model
           0 VNull empty_world tr "text" 1 5);
    [reflexivity | reflexivity | by split].
Defined.

(** * Further properties of the sources *)

(** ** observerWithModel *)

Section WrapTimeMore.

Context (rt : Runtime) (Model : ModelClass).

Lemma tag_test_false (v tag : jsval) : v ≠ tag → strict_eq v tag = false.
Proof. intros H. unfold strict_eq. by apply bool_decide_eq_false_2. Qed.

Lemma tag_test_true (v tag : jsval) : strict_eq v tag = true → v = tag.
Proof. unfold strict_eq. apply bool_decide_eq_true_1. Qed.

(** Every component [observerWithModel] returns: [React.memo] around the
    labelled function, or around [forwardRef] of it, with the statics of the
    base copied on top. *)
Lemma observerWithModel_shape (base : JSObject) (c : Component) :
  observerWithModel rt Model base = Ok c →
  ∃ render,
    let f := build_observerComponent rt Model base
               (build_ObserverWrapper rt base render) in
    (render = o_self base ∧ ¬ is_forwardRef_component base
     ∧ c = copy_statics_to base (React_memo f))
    ∨ (render = prop base "render" ∧ is_forwardRef_component base
       ∧ is_function render = true
       ∧ c = copy_statics_to base
               (React_memo
                  (ForwardRef f {["$$typeof" := REACT_FORWARD_REF_TYPE]}))).
Proof.
  unfold observerWithModel.
  rewrite ReactMemoSymbol_eq, ReactForwardRefSymbol_eq.
  destruct (truthy REACT_MEMO_TYPE && _); [done |].
  destruct (strict_eq (prop base "$$typeof") REACT_FORWARD_REF_TYPE) eqn:Hfr;
    simpl.
  - apply tag_test_true in Hfr.
    destruct (is_function (prop base "render")) eqn:Hfun; simpl; [|done].
    intros Hc. exists (prop base "render"). right.
    split_and!; [done | done | done |].
    unfold build_observerComponent, build_ObserverWrapper.
    destruct (isFunctionNameConfigurable rt); simpl in *; congruence.
  - intros Hc. exists (o_self base). left.
    split_and!; [done | |].
    + unfold is_forwardRef_component. intros Heq.
      rewrite Heq in Hfr. by vm_compute in Hfr.
    + unfold build_observerComponent, build_ObserverWrapper.
      destruct (isFunctionNameConfigurable rt); simpl in *; congruence.
Qed.

(** X1: a plain function component is always accepted.  The component
    returned is [memo(observerComponent)], without a forwarding layer, and
    its reactive boundary calls the base component itself. *)
Theorem plain_target_gives_memo_of_function (base : JSObject) :
  is_plain_target base →
  ∃ c W,
    observerWithModel rt Model base = Ok c
    ∧ layers c = [LMemo; LFunction; LMemo; LReactive]
    ∧ wrapper_of c = Some W
    ∧ render_of W = Some (o_self base).
Proof.
  intros [Hmemo Hfr]. unfold is_memo_component, is_forwardRef_component in *.
  unfold observerWithModel.
  rewrite ReactMemoSymbol_eq, ReactForwardRefSymbol_eq.
  rewrite (tag_test_false _ _ Hmemo), (tag_test_false _ _ Hfr). simpl.
  destruct (isFunctionNameConfigurable rt); simpl;
    eexists _, _; split_and!; reflexivity.
Qed.

(** X2: the only two ways [observerWithModel] throws, and what it returns
    otherwise.  It throws for a [memo] target (first message) and for a
    [forwardRef] target whose [render] is not a function (second message),
    and in no other case; what it returns is a [memo] component. *)
Theorem observerWithModel_outcomes (base : JSObject) (self : jsval) :
  match observerWithModel rt Model base with
  | Throw e =>
      (is_memo_component base ∧ e = Error memo_message)
      ∨ (¬ is_memo_component base ∧ is_forwardRef_component base
         ∧ is_function (prop base "render") = false
         ∧ e = Error render_message)
  | Ok c =>
      ¬ is_memo_component base
      ∧ (is_forwardRef_component base →
         is_function (prop base "render") = true)
      ∧ is_memo_component (as_render_target self c)
  end.
Proof.
  destruct (observerWithModel rt Model base) as [c|e] eqn:Hres.
  - pose proof (observerWithModel_returns_memo rt Model base c self Hres) as Hc.
    revert Hres. unfold observerWithModel.
    rewrite ReactMemoSymbol_eq, ReactForwardRefSymbol_eq.
    destruct (strict_eq (prop base "$$typeof") REACT_MEMO_TYPE) eqn:Hm;
      simpl; [done |].
    destruct (strict_eq (prop base "$$typeof") REACT_FORWARD_REF_TYPE) eqn:Hfr;
      simpl.
    + destruct (is_function (prop base "render")); simpl; [|done].
      intros _. split_and!; [| done | done].
      unfold is_memo_component. intros Heq. rewrite Heq in Hm.
      by vm_compute in Hm.
    + intros _. split_and!; [| | done].
      * unfold is_memo_component. intros Heq. rewrite Heq in Hm.
        by vm_compute in Hm.
      * unfold is_forwardRef_component. intros Heq. rewrite Heq in Hfr.
        by vm_compute in Hfr.
  - revert Hres. unfold observerWithModel.
    rewrite ReactMemoSymbol_eq, ReactForwardRefSymbol_eq.
    destruct (strict_eq (prop base "$$typeof") REACT_MEMO_TYPE) eqn:Hm; simpl.
    { intros [= <-]. left. split; [by apply tag_test_true | done]. }
    destruct (strict_eq (prop base "$$typeof") REACT_FORWARD_REF_TYPE) eqn:Hfr;
      simpl.
    + destruct (is_function (prop base "render")) eqn:Hfun; simpl.
      * by destruct (isFunctionNameConfigurable rt).
      * intros [= <-]. right. split_and!; try done.
        -- unfold is_memo_component. intros Heq. rewrite Heq in Hm.
           by vm_compute in Hm.
        -- by apply tag_test_true.
    + by destruct (isFunctionNameConfigurable rt).
Qed.

End WrapTimeMore.

Section Hoisting.

Context (rt : Runtime) (Model : ModelClass).

Lemma function_of_built (base : JSObject) (W : Component) :
  ∃ name,
    build_observerComponent rt Model base W
    = ObserverComponentFn Model W name
        {["displayName" := prop base "displayName"]}
    ∧ (isFunctionNameConfigurable rt = true → name = o_name base).
Proof.
  unfold build_observerComponent.
  destruct (isFunctionNameConfigurable rt); simpl; eexists; split; done.
Qed.

Lemma wrapper_built (base : JSObject) (render : jsval) :
  ∃ name,
    build_ObserverWrapper rt base render
    = Memo (ObserverFn render) name
        (copyStaticProperties (o_own base)
           (<["displayName" :=
                labelled rt "ObserverWrapper" (prop base "displayName")]>
              {["$$typeof" := REACT_MEMO_TYPE]}))
    ∧ (isFunctionNameConfigurable rt = true →
       name = labelled rt "Wrap" (o_name base)).
Proof.
  unfold build_ObserverWrapper.
  destruct (isFunctionNameConfigurable rt); simpl; eexists; split; done.
Qed.

(** The parts of a returned component. *)
Lemma observerWithModel_parts (base : JSObject) (c : Component) :
  observerWithModel rt Model base = Ok c →
  ∃ render fname,
    own_of c = copyStaticProperties (o_own base)
                 {["$$typeof" := REACT_MEMO_TYPE]}
    ∧ function_of c
      = Some (ObserverComponentFn Model (build_ObserverWrapper rt base render)
                fname {["displayName" := prop base "displayName"]})
    ∧ wrapper_of c = Some (build_ObserverWrapper rt base render)
    ∧ (isFunctionNameConfigurable rt = true → fname = o_name base).
Proof.
  intros Hc. destruct (observerWithModel_shape rt Model base c Hc)
    as (render & Hshape). simpl in Hshape.
  destruct (function_of_built base (build_ObserverWrapper rt base render))
    as (fname & Hf & Hname).
  exists render, fname. unfold wrapper_of.
  destruct Hshape as [(_ & _ & ->) | (_ & _ & _ & ->)];
    simpl; rewrite Hf; simpl; done.
Qed.

(** X3: what [observerWithModel] returns cannot be wrapped again: given back
    as a render target, under any runtime and model class, it makes
    [observerWithModel] throw the double-wrapping error. *)
Theorem wrapping_the_result_again_throws
    (rt' : Runtime) (Model' : ModelClass)
    (base : JSObject) (c : Component) (self : jsval) :
  observerWithModel rt Model base = Ok c →
  observerWithModel rt' Model' (as_render_target self c)
  = Throw (Error memo_message).
Proof.
  intros Hc.
  pose proof (observerWithModel_returns_memo rt Model base c self Hc) as Hmemo.
  unfold is_memo_component in Hmemo. unfold observerWithModel.
  rewrite ReactMemoSymbol_eq, Hmemo. done.
Qed.

(** X4: a static field of the render target whose name is not skipped is
    found, with the same value, on the component returned and on the
    [ObserverWrapper] it renders. *)
Theorem statics_are_hoisted_on_both_components
    (base : JSObject) (c : Component) (key : string) (v : jsval) :
  observerWithModel rt Model base = Ok c →
  ¬ skipped key →
  o_own base !! key = Some v →
  own_of c !! key = Some v
  ∧ ∃ W, wrapper_of c = Some W ∧ own_of W !! key = Some v.
Proof.
  intros Hc Hskip Hv.
  assert ((key ∉ reserved) ∧ Object_prototype !! key = None) as [Hres Hproto].
  { unfold skipped in Hskip. split; [tauto |].
    destruct (Object_prototype !! key) eqn:E; [|done].
    exfalso. apply Hskip. right. by eexists. }
  destruct (observerWithModel_parts base c Hc)
    as (render & fname & Hown & _ & HW & _).
  split.
  - rewrite Hown. by apply static_copied.
  - eexists. split; [exact HW |].
    destruct (wrapper_built base render) as (name & -> & _). simpl.
    by apply static_copied.
Qed.

(** X5: the labels.  The function under the layers carries the
    [displayName] of the render target unchanged.  [ObserverWrapper] carries
    it prefixed with "ObserverWrapper" when it is truthy and unchanged when
    it is falsy (undefined, the empty string), and the copy of the statics
    does not replace it.  Where function names are configurable the two
    names are the target's name and the same name prefixed with "Wrap". *)
Theorem labels_of_the_produced_components
    (base : JSObject) (c : Component) :
  observerWithModel rt Model base = Ok c →
  ∃ f W,
    function_of c = Some f ∧ wrapper_of c = Some W
    ∧ own_of f !! "displayName" = Some (prop base "displayName")
    ∧ own_of W !! "displayName"
      = Some (if truthy (prop base "displayName")
              then VStr ("ObserverWrapper"
                           ++ ToString rt (prop base "displayName"))
              else prop base "displayName")
    ∧ (isFunctionNameConfigurable rt = true →
       name_of f = o_name base
       ∧ name_of W = if truthy (o_name base)
                     then VStr ("Wrap" ++ ToString rt (o_name base))
                     else o_name base).
Proof.
  intros Hc.
  destruct (observerWithModel_parts base c Hc)
    as (render & fname & _ & Hf & HW & Hfname).
  destruct (wrapper_built base render) as (wname & HWeq & Hwname).
  eexists _, _. split_and!; [exact Hf | exact HW | | |].
  - simpl. by rewrite lookup_singleton_eq.
  - rewrite HWeq. simpl. rewrite reserved_not_overwritten.
    + by rewrite lookup_insert_eq.
    + unfold reserved. set_solver.
  - intros Hcfg. rewrite HWeq. simpl. by rewrite Hfname, Hwname.
Qed.

End Hoisting.

(** ** copyStaticProperties, key by key *)

(** X6: what [copyStaticProperties] leaves under every key.  Under a
    skipped key (a reserved name or the name of a property of
    [Object.prototype]) the target keeps what it had; under any other key
    the property of the base replaces the target's, and the target keeps
    its own where the base has none. *)
Theorem copyStaticProperties_key_by_key
    (base target : gmap string jsval) (key : string) :
  copyStaticProperties base target !! key
  = if bool_decide (skipped key) then target !! key
    else match base !! key with
         | Some v => Some v
         | None => target !! key
         end.
Proof.
  rewrite copyStaticProperties_lookup. case_bool_decide as Hs.
  - apply hoistBlackList_truthy in Hs. by rewrite Hs.
  - destruct (truthy (literal_get hoistBlackList key)) eqn:Ht.
    + exfalso. by apply Hs, hoistBlackList_truthy.
    + by destruct (base !! key).
Qed.

(** X7: [copyStaticProperties] removes nothing from the target and adds only
    keys of the base. *)
Theorem copyStaticProperties_keys (base target : gmap string jsval) :
  dom target ⊆ dom (copyStaticProperties base target)
  ∧ dom (copyStaticProperties base target) ⊆ dom target ∪ dom base.
Proof.
  split; intros key; rewrite ?elem_of_union, !elem_of_dom;
    rewrite copyStaticProperties_lookup;
    destruct (truthy (literal_get hoistBlackList key));
    destruct (base !! key) as [d|] eqn:Hb; simpl; eauto.
Qed.

(** X8: copying the statics of the same base a second time changes
    nothing. *)
Theorem copyStaticProperties_idempotent (base target : gmap string jsval) :
  copyStaticProperties base (copyStaticProperties base target)
  = copyStaticProperties base target.
Proof.
  apply map_eq. intros key. rewrite !copyStaticProperties_lookup.
  destruct (truthy (literal_get hoistBlackList key)); [done |].
  by destruct (base !! key).
Qed.

(** ** createModel and its accessor *)

Section AccessorMore.

Context (own_props : addr → gmap string jsval)
        (member_equals : jsval → IEqualsComparer).

(** The world an accessor call leaves: at most one address is taken, and
    only the scope of the model is replaced, by one with the same model and
    a cache that has at least the keys it had. *)
Lemma accessor_world getProps m sc key w :
  ∃ mp w0,
    (w0 = w ∨ w0 = bump w)
    ∧ dom (s_map sc) ⊆ dom mp ∧ key ∈ dom mp
    ∧ ((accessor own_props member_equals getProps m sc key w).2
       = set_scope m {| s_model := s_model sc; s_map := mp |} w0
       ∨ ((accessor own_props member_equals getProps m sc key w).2 = w
          ∧ mp = s_map sc)).
Proof.
  unfold accessor. destruct (s_map sc !! key) as [c|] eqn:Hk.
  - destruct (getProps w) as [p|].
    + destruct (ComputedValue_get c (read_prop own_props p (c_key c)))
        as [v c'] eqn:Hget. simpl.
      exists (<[key := c']> (s_map sc)), w.
      split_and!; [by left | | | by left].
      * rewrite dom_insert_L. set_solver.
      * rewrite dom_insert_L. set_solver.
    + simpl. exists (s_map sc), w.
      split_and!; [by left | done | by eapply elem_of_dom_2 | by right].
  - match goal with |- context [getProps ?x] => destruct (getProps x) as [p|] end.
    + simpl. eexists _, (bump w).
      split_and!; [by right | | | left].
      3:{ unfold ComputedValue_get; simpl.
          rewrite set_scope_twice. reflexivity. }
      * rewrite !dom_insert_L. set_solver.
      * rewrite !dom_insert_L. set_solver.
    + simpl. eexists _, (bump w).
      split_and!; [by right | | | left; reflexivity].
      * rewrite dom_insert_L. set_solver.
      * rewrite dom_insert_L. set_solver.
Qed.

(** X9: a call of [model.get(key)], whatever it returns, touches nothing but
    the cache of its own model: the boxes, the requests made to the
    reactive engine and every other model are as before, the model keeps
    its [annotations] and its [get] property, and its cache loses no key. *)
Theorem read_touches_only_the_cache_of_its_model
    (getProps : World → option addr) (m : addr) (key : string) (w : World) :
  let w' := (model_get own_props member_equals getProps m key w).2 in
  boxes w' = boxes w
  ∧ log w' = log w
  ∧ delete m (models w') = delete m (models w)
  ∧ s_model <$> models w' !! m = s_model <$> models w !! m
  ∧ dom (cache_of m w) ⊆ dom (cache_of m w')
  ∧ (next w ≤ next w')%nat.
Proof.
  intros w'. subst w'.
  destruct (model_get_frame own_props member_equals getProps m key w) as [Hb Hl].
  split_and!; [done | done | | | |].
  all: unfold model_get, cache_of.
  all: destruct (models w !! m) as [sc|] eqn:Hm; simpl; rewrite ?Hm; try done.
  all: destruct (get (s_model sc)); simpl; rewrite ?Hm; try done.
  all: destruct (accessor_world getProps m sc key w)
         as (mp & w0 & Hw0 & Hdom & _ & [-> | [-> ->]]);
       simpl; rewrite ?Hm; try done.
  - rewrite delete_insert_eq. by destruct Hw0 as [-> | ->].
  - by rewrite lookup_insert_eq.
  - by rewrite lookup_insert_eq.
  - destruct Hw0 as [-> | ->]; simpl; lia.
Qed.

Lemma reads_undefined_step m key w sc :
  models w !! m = Some sc →
  get (s_model sc) = get_accessor →
  ∃ sc',
    model_get own_props member_equals (λ _, None) m key w
    = (Throw (TypeError PropertyOfUndefined),
       (model_get own_props member_equals (λ _, None) m key w).2)
    ∧ models (model_get own_props member_equals (λ _, None) m key w).2 !! m = Some sc'
    ∧ get (s_model sc') = get_accessor
    ∧ dom (s_map sc') = {[key]} ∪ dom (s_map sc).
Proof.
  intros Hm Hg. unfold model_get. rewrite Hm, Hg. unfold accessor.
  destruct (s_map sc !! key) as [c|] eqn:Hk; simpl.
  - exists sc. split_and!; try done.
    apply elem_of_dom_2 in Hk. set_solver.
  - eexists. rewrite lookup_insert_eq. split_and!; try done.
    simpl. by rewrite dom_insert_L.
Qed.

(** X10: when [getProps()] yields undefined, every read throws the
    runtime's TypeError, and still a computation has been stored for each
    key that was read: the accessor fills its map before it evaluates. *)
Theorem failed_reads_still_fill_the_cache
    (Model : ModelClass) (w : World) (keys : list string) :
  let '(m, w1) := createModel Model w in
  let '(rs, w2) := reads own_props member_equals (λ _, None) m keys w1 in
  rs = map (λ _, Throw (TypeError PropertyOfUndefined)) keys
  ∧ dom (cache_of m w2) = list_to_set keys.
Proof.
  simpl.
  assert (∀ w1 sc,
            models w1 !! next w = Some sc →
            get (s_model sc) = get_accessor →
            (reads own_props member_equals (λ _, None) (next w) keys w1).1
            = map (λ _, Throw (TypeError PropertyOfUndefined)) keys
            ∧ dom (cache_of (next w)
                     (reads own_props member_equals (λ _, None) (next w) keys w1).2)
              = list_to_set keys ∪ dom (s_map sc)) as Hgen.
  { induction keys as [|k keys IH]; intros w1 sc Hsc Hg; simpl.
    - unfold cache_of. rewrite Hsc. simpl. split; [done | set_solver].
    - destruct (reads_undefined_step (next w) k w1 sc Hsc Hg)
        as (sc' & Hres & Hsc' & Hg' & Hdom).
      rewrite Hres.
      destruct (IH _ _ Hsc' Hg') as [IH1 IH2].
      destruct (reads own_props member_equals (λ _ : World, None) (next w) keys
                  (model_get own_props member_equals (λ _ : World, None) (next w) k w1).2)
        as [rs w2] eqn:Hreads.
      simpl in *. split; [by rewrite IH1 |].
      rewrite IH2, Hdom. set_solver. }
  specialize (Hgen (createModel Model w).2 _ (lookup_insert_eq _ _ _) eq_refl).
  simpl in Hgen.
  destruct (reads own_props member_equals (λ _ : World, None) (next w) keys _)
    as [rs w2] eqn:Hreads.
  simpl in Hgen. destruct Hgen as [-> ->]. split; [done | set_solver].
Qed.

End AccessorMore.

(** ** The life of a component instance *)

Section InstanceMore.

Context (own_props : addr → gmap string jsval)
        (member_equals : jsval → IEqualsComparer).

Lemma run_app Model st tr tr' :
  run own_props member_equals Model st (tr ++ tr')
  = run own_props member_equals Model (run own_props member_equals Model st tr) tr'.
Proof. unfold run. apply foldl_app. Qed.

Lemma run_reads_hooks Model st keys :
  (run own_props member_equals Model st (map Read keys)).1 = st.1.
Proof.
  revert st. induction keys as [|k keys IH]; intros st; [done |].
  simpl. rewrite IH. simpl. by destruct (refModel st.1).
Qed.

Lemma render_pass_deps Model b m props ref st :
  mounted own_props member_equals Model b m st →
  deps (render_pass own_props Model props ref st).1 = Some props.
Proof.
  destruct st as [h w].
  intros (Hb & Hm & (held & d & Hheld & Hd & _) & _). simpl in *.
  rewrite (rerender_eq own_props Model b m props ref h w held d Hb Hm Hheld Hd).
  case_bool_decide; simpl; congruence.
Qed.

(** The states in which [props] is the object of the last render: any
    steps, then a render with [props], then only reads. *)
Lemma after_render Model props0 ref0 w0 tr props ref keys :
  let st := run own_props member_equals Model (mount own_props Model props0 ref0 w0)
              (tr ++ Render props ref :: map Read keys) in
  mounted own_props member_equals Model (next w0) (S (next w0)) st
  ∧ deps st.1 = Some props.
Proof.
  intros st. subst st.
  pose proof (mount_mounted own_props member_equals Model props0 ref0 w0) as H0.
  split; [by apply run_mounted |].
  rewrite run_app. simpl. rewrite run_reads_hooks.
  eapply render_pass_deps. by apply run_mounted.
Qed.

(** X11: the first render.  It allocates one box holding the props object
    it was given and one model with the accessor installed, the
    annotations of its class and an empty cache; its effect opens and
    closes one action without writing the box. *)
Theorem first_render_allocates_box_and_model
    (Model : ModelClass) (props : addr) (ref : jsval) (w : World) :
  let st := mount own_props Model props ref w in
  refProps st.1 = Some (next w)
  ∧ refModel st.1 = Some (S (next w))
  ∧ deps st.1 = Some props
  ∧ boxes st.2 = <[next w := props]> (boxes w)
  ∧ models st.2
    = <[S (next w) := {| s_model := {| annotations := super_annotations Model;
                                       get := get_accessor |};
                         s_map := ∅ |}]> (models w)
  ∧ new_events w st.2 = [ActionStart; ActionEnd]
  ∧ next st.2 = S (S (next w)).
Proof.
  unfold mount, render_pass, observerComponent_render,
    observerComponent_commit, sync_effect, runInAction; simpl.
  rewrite lookup_insert_eq, comparer_shallow_refl. simpl.
  split_and!; try done.
  apply new_events_app. simpl. by rewrite <- app_assoc.
Qed.

(** X12: a render that receives the very props object of the previous
    render changes nothing: no effect runs, the box, the models and the
    requests made to the reactive engine are as they were. *)
Theorem render_with_the_same_props_object_changes_nothing
    (Model : ModelClass) (props0 : addr) (ref0 : jsval) (w0 : World)
    (tr : list step) (props : addr) (ref ref' : jsval)
    (keys : list string) :
  let st := run own_props member_equals Model (mount own_props Model props0 ref0 w0)
              (tr ++ Render props ref :: map Read keys) in
  render_pass own_props Model props ref' st = st.
Proof.
  intros st.
  destruct (after_render Model props0 ref0 w0 tr props ref keys)
    as ((Hb & Hm & (held & d & Hheld & Hd & _) & _) & Hdeps).
  fold st in Hb, Hm, Hheld, Hd, Hdeps. destruct st as [h w]. simpl in *.
  rewrite (rerender_eq own_props Model _ _ props ref' h w held props
             Hb Hm Hheld Hdeps).
  rewrite bool_decide_eq_true_2 by done.
  destruct h as [rp rm dp]. simpl in *. congruence.
Qed.

Lemma snapshot_after_render Model props0 ref0 w0 tr props ref keys :
  let st := run own_props member_equals Model (mount own_props Model props0 ref0 w0)
              (tr ++ Render props ref :: map Read keys) in
  ∃ held,
    getProps st.1 st.2 = Some held
    ∧ comparer_shallow own_props props held = true.
Proof.
  intros st.
  destruct (after_render Model props0 ref0 w0 tr props ref keys)
    as ((Hb & Hm & (held & d & Hheld & Hd & Hsh) & _) & Hdeps).
  fold st in Hb, Hm, Hheld, Hd, Hdeps.
  rewrite Hd in Hdeps. injection Hdeps as ->.
  exists held. split; [| done]. unfold getProps. by rewrite Hb.
Qed.

(** X13: after a render, and until the next one, the snapshot the accessor
    reads has exactly the own properties of the props that were rendered
    (it is that object, or one the effect found shallow-equal to it). *)
Theorem snapshot_has_the_properties_of_the_last_props
    (Model : ModelClass) (props0 : addr) (ref0 : jsval) (w0 : World)
    (tr : list step) (props : addr) (ref : jsval) (keys : list string) :
  let st := run own_props member_equals Model (mount own_props Model props0 ref0 w0)
              (tr ++ Render props ref :: map Read keys) in
  ∃ held,
    getProps st.1 st.2 = Some held
    ∧ own_props held = own_props props.
Proof.
  intros st.
  destruct (snapshot_after_render Model props0 ref0 w0 tr props ref keys)
    as (held & Hgp & Hsh).
  exists held. split; [done |].
  apply comparer_shallow_spec in Hsh as [-> | Heq]; done.
Qed.


End InstanceMore.

(** ** Unmounting, and instances side by side *)

Section InstanceEnd.

Context (own_props : addr → gmap string jsval)
        (member_equals : jsval → IEqualsComparer).

Lemma model_get_others getProps m key w m' :
  m' ≠ m →
  models (model_get own_props member_equals getProps m key w).2 !! m' = models w !! m'.
Proof.
  intros Hne. unfold model_get.
  destruct (models w !! m) as [sc|] eqn:Hm; [|done].
  destruct (get (s_model sc)); try done.
  destruct (accessor_world own_props member_equals getProps m sc key w)
    as (mp & w0 & Hw0 & _ & _ & [-> | [-> _]]); [|done].
  simpl. rewrite lookup_insert_ne by done. by destruct Hw0 as [-> | ->].
Qed.

Lemma model_get_next getProps m key w :
  (next w ≤ next (model_get own_props member_equals getProps m key w).2)%nat.
Proof.
  unfold model_get.
  destruct (models w !! m) as [sc|] eqn:Hm; [|done].
  destruct (get (s_model sc)); try done.
  destruct (accessor_world own_props member_equals getProps m sc key w)
    as (mp & w0 & Hw0 & _ & _ & [-> | [-> _]]); [|done].
  destruct Hw0 as [-> | ->]; simpl; lia.
Qed.

Lemma step_next Model b m st s :
  mounted own_props member_equals Model b m st →
  (next st.2 ≤ next (do_step own_props member_equals Model st s).2)%nat.
Proof.
  intros Hst. destruct s as [props ref | key]; simpl.
  - destruct (rerender_mounted own_props member_equals Model b m props ref st Hst)
      as (_ & _ & _ & ->). done.
  - destruct Hst as (_ & -> & _). simpl. apply model_get_next.
Qed.

Lemma run_next Model b m st tr :
  mounted own_props member_equals Model b m st →
  (next st.2 ≤ next (run own_props member_equals Model st tr).2)%nat.
Proof.
  revert st. induction tr as [|s tr IH]; intros st Hst; [done |].
  simpl. destruct (step_mounted own_props member_equals Model b m st s Hst) as (H1 & _).
  pose proof (step_next Model b m st s Hst) as Hs. specialize (IH _ H1).
  etrans; [exact Hs | exact IH].
Qed.

(** A step of an instance leaves every other box and every other model as
    they are. *)
Lemma step_others Model b m st s b' m' :
  mounted own_props member_equals Model b m st → b' ≠ b → m' ≠ m →
  boxes (do_step own_props member_equals Model st s).2 !! b' = boxes st.2 !! b'
  ∧ models (do_step own_props member_equals Model st s).2 !! m' = models st.2 !! m'.
Proof.
  intros Hst Hb' Hm'. destruct s as [props ref | key]; simpl.
  - destruct (rerender_mounted own_props member_equals Model b m props ref st Hst)
      as (_ & _ & -> & _). split; [|done].
    destruct st as [h w].
    destruct Hst as (Hb & Hm & (held & d & Hheld & Hd & _) & _). simpl in *.
    rewrite (rerender_eq own_props Model b m props ref h w held d
               Hb Hm Hheld Hd).
    case_bool_decide; [done |].
    destruct (comparer_shallow own_props props held); simpl; [done |].
    by rewrite lookup_insert_ne.
  - destruct st as [h w]. destruct Hst as (_ & Hm & _). simpl in *.
    rewrite Hm. simpl. split.
    + by destruct (model_get_frame own_props member_equals (getProps h) m key w) as [-> _].
    + by apply model_get_others.
Qed.

Lemma run_others Model b m st tr b' m' :
  mounted own_props member_equals Model b m st → b' ≠ b → m' ≠ m →
  boxes (run own_props member_equals Model st tr).2 !! b' = boxes st.2 !! b'
  ∧ models (run own_props member_equals Model st tr).2 !! m' = models st.2 !! m'.
Proof.
  revert st. induction tr as [|s tr IH]; intros st Hst Hb' Hm'; [done |].
  simpl. destruct (step_mounted own_props member_equals Model b m st s Hst) as (H1 & _).
  destruct (step_others Model b m st s b' m' Hst Hb' Hm') as [<- <-].
  by apply IH.
Qed.

Lemma mount_stores Model props ref w :
  boxes (mount own_props Model props ref w).2 = <[next w := props]> (boxes w)
  ∧ models (mount own_props Model props ref w).2
    = <[S (next w) := {| s_model := {| annotations := super_annotations Model;
                                       get := get_accessor |};
                         s_map := ∅ |}]> (models w)
  ∧ next (mount own_props Model props ref w).2 = S (S (next w)).
Proof.
  unfold mount, render_pass, observerComponent_render,
    observerComponent_commit, sync_effect, runInAction; simpl.
  rewrite lookup_insert_eq, comparer_shallow_refl. done.
Qed.

(** X15: unmounting only disposes the model.  The cells and the box are
    left as they are and nothing is sent to the reactive engine; the model
    keeps its annotations, its [get] property is [null] and its cache is
    empty, whatever had been read; every other model is untouched. *)
Theorem unmount_disposes_the_model_only
    (Model : ModelClass) (props0 : addr) (ref0 : jsval) (w0 : World)
    (tr : list step) :
  let st := run own_props member_equals Model (mount own_props Model props0 ref0 w0) tr in
  let st' := observerComponent_unmount st in
  ∃ m,
    refModel st.1 = Some m
    ∧ st'.1 = st.1
    ∧ boxes st'.2 = boxes st.2
    ∧ log st'.2 = log st.2
    ∧ models st'.2 !! m
      = Some {| s_model := {| annotations := super_annotations Model;
                              get := get_null |};
                s_map := ∅ |}
    ∧ delete m (models st'.2) = delete m (models st.2).
Proof.
  intros st st'. subst st'.
  pose proof (mount_mounted own_props member_equals Model props0 ref0 w0) as H0.
  destruct (run_mounted own_props member_equals Model _ _ _ tr H0)
    as ((_ & Hm & _ & (sc & Hsc & Hmodel & _)) & _).
  fold st in Hm, Hsc. exists (S (next w0)).
  unfold observerComponent_unmount. rewrite Hm. simpl.
  unfold dispose. rewrite Hsc. simpl.
  rewrite lookup_insert_eq, delete_insert_eq, Hmodel. done.
Qed.

Lemma unmount_disposed Model b m st :
  mounted own_props member_equals Model b m st →
  disposed_instance b m (observerComponent_unmount st).
Proof.
  intros (Hb & Hm & (held & d & Hheld & Hd & _) & (sc & Hsc & _)).
  unfold observerComponent_unmount. rewrite Hm.
  unfold disposed_instance; simpl. split_and!; [done | done | |].
  - exists held, d. split; [|done].
    unfold dispose. by rewrite Hsc.
  - exists sc. by rewrite dispose_lookup, Hsc.
Qed.

Lemma disposed_step Model b m st s :
  disposed_instance b m st →
  disposed_instance b m (do_step own_props member_equals Model st s)
  ∧ models (do_step own_props member_equals Model st s).2 = models st.2.
Proof.
  destruct st as [h w].
  intros (Hb & Hm & (held & d & Hheld & Hd) & (sc & Hsc)). simpl in *.
  destruct s as [props ref | key]; simpl.
  - rewrite (rerender_eq own_props Model b m props ref h w held d
               Hb Hm Hheld Hd).
    unfold disposed_instance. case_bool_decide; simpl.
    { split_and!; try done; by eauto. }
    destruct (comparer_shallow own_props props held); simpl.
    + split_and!; try done; by eauto.
    + split_and!; try done; [| by eauto].
      exists props, props. by rewrite lookup_insert_eq.
  - rewrite Hm. simpl.
    rewrite (model_get_null own_props member_equals (getProps h) m key w (disposed sc) Hsc eq_refl).
    simpl. split; [|done].
    unfold disposed_instance; simpl. split_and!; try done; by eauto.
Qed.

Lemma disposed_run Model b m st tr :
  disposed_instance b m st →
  disposed_instance b m (run own_props member_equals Model st tr)
  ∧ models (run own_props member_equals Model st tr).2 = models st.2.
Proof.
  revert st. induction tr as [|s tr IH]; intros st Hst; [done |].
  simpl. destruct (disposed_step Model b m st s Hst) as [H1 <-].
  by apply IH.
Qed.

(** X16: after the clean-up of the unmount effect has run, the instance
    never gets a working model again.  Whatever renders and reads follow,
    the cell still holds the disposed model, no model is created or
    changed, its cache stays empty, and every read through it throws. *)
Theorem no_model_is_created_after_unmount
    (Model : ModelClass) (props0 : addr) (ref0 : jsval) (w0 : World)
    (tr tr' : list step) (key : string) :
  let st0 := observerComponent_unmount
               (run own_props member_equals Model
                  (mount own_props Model props0 ref0 w0) tr) in
  let st := run own_props member_equals Model st0 tr' in
  ∃ m,
    refModel st0.1 = Some m ∧ refModel st.1 = Some m
    ∧ models st.2 = models st0.2
    ∧ cache_of m st.2 = ∅
    ∧ model_get own_props member_equals (getProps st.1) m key st.2
      = (Throw (TypeError NotAFunction), st.2).
Proof.
  intros st0 st.
  pose proof (mount_mounted own_props member_equals Model props0 ref0 w0) as H0.
  destruct (run_mounted own_props member_equals Model _ _ _ tr H0) as (H1 & _).
  apply unmount_disposed in H1. fold st0 in H1.
  destruct (disposed_run Model _ _ st0 tr' H1) as [H2 Hmodels].
  fold st in H2, Hmodels.
  destruct H1 as (_ & Hm0 & _).
  destruct H2 as (_ & Hm & _ & (sc & Hsc)).
  exists (S (next w0)). split_and!; [done | done | done | |].
  - unfold cache_of. by rewrite Hsc.
  - by apply (model_get_null own_props member_equals _ _ _ _ (disposed sc)).
Qed.

(** X17: two instances never share a box or a model, and the second does
    not disturb the first.  When an instance is mounted in the world a
    first instance has reached, it gets a box and a model of its own, and
    whatever renders and reads it goes through leave the box and the model
    of the first instance as they were. *)
Theorem instances_have_their_own_box_and_model
    (Model1 Model2 : ModelClass) (props1 props2 : addr) (ref1 ref2 : jsval)
    (w0 : World) (tr1 tr2 : list step) :
  let st1 := run own_props member_equals Model1 (mount own_props Model1 props1 ref1 w0) tr1 in
  let st2 := run own_props member_equals Model2
               (mount own_props Model2 props2 ref2 st1.2) tr2 in
  ∃ b1 m1 b2 m2,
    refProps st1.1 = Some b1 ∧ refModel st1.1 = Some m1
    ∧ refProps st2.1 = Some b2 ∧ refModel st2.1 = Some m2
    ∧ b1 ≠ b2 ∧ m1 ≠ m2
    ∧ boxes st2.2 !! b1 = boxes st1.2 !! b1
    ∧ models st2.2 !! m1 = models st1.2 !! m1.
Proof.
  intros st1 st2.
  pose proof (mount_mounted own_props member_equals Model1 props1 ref1 w0) as H1.
  pose proof (run_next Model1 _ _ _ tr1 H1) as Hnext.
  destruct (mount_stores Model1 props1 ref1 w0) as (_ & _ & Hn1).
  rewrite Hn1 in Hnext.
  destruct (run_mounted own_props member_equals Model1 _ _ _ tr1 H1) as ((Hb1 & Hm1 & _) & _).
  fold st1 in Hnext, Hb1, Hm1.
  pose proof (mount_mounted own_props member_equals Model2 props2 ref2 st1.2) as H2.
  destruct (run_mounted own_props member_equals Model2 _ _ _ tr2 H2) as ((Hb2 & Hm2 & _) & _).
  fold st2 in Hb2, Hm2.
  exists (next w0), (S (next w0)), (next st1.2), (S (next st1.2)).
  assert (next w0 ≠ next st1.2) as Hb by lia.
  assert (S (next w0) ≠ S (next st1.2)) as Hm by lia.
  split_and!; try done.
  - unfold st2.
    destruct (run_others Model2 _ _ _ tr2 (next w0) (S (next w0)) H2 Hb Hm)
      as [-> _].
    destruct (mount_stores Model2 props2 ref2 st1.2) as (-> & _ & _).
    by rewrite lookup_insert_ne.
  - unfold st2.
    destruct (run_others Model2 _ _ _ tr2 (next w0) (S (next w0)) H2 Hb Hm)
      as [_ ->].
    destruct (mount_stores Model2 props2 ref2 st1.2) as (_ & -> & _).
    by rewrite lookup_insert_ne.
Qed.

End InstanceEnd.

(** ** Instances of the further theorems that have hypotheses *)

Lemma plain_target_witness :
  let rt := {| hasSymbol := true; isFunctionNameConfigurable := true;
               ToString := λ _, "Card" |} in
  let Model := {| super_annotations := None |} in
  let base := {| o_self := VFun 0; o_name := VStr "Card";
                 o_own := {[ "displayName" := VStr "Card";
                             "defaultProps" := VObj 2 ]} |} in
  ∃ c W,
    observerWithModel rt Model base = Ok c
    ∧ layers c = [LMemo; LFunction; LMemo; LReactive]
    ∧ wrapper_of c = Some W
    ∧ render_of W = Some (o_self base).
Proof.
  intros rt Model base.
  apply (plain_target_gives_memo_of_function rt Model base).
  split; intros H; vm_compute in H; discriminate H.
Defined.

Lemma wrapping_again_witness :
  let rt := {| hasSymbol := true; isFunctionNameConfigurable := true;
               ToString := λ _, "Card" |} in
  let Model := {| super_annotations := None |} in
  let base := {| o_self := VFun 0; o_name := VStr "Card";
                 o_own := {[ "displayName" := VStr "Card";
                             "defaultProps" := VObj 2 ]} |} in
  let c := default (ObserverFn VUndefined)
             (observerWithModel_ok rt Model base) in
  observerWithModel rt Model (as_render_target (VObj 7) c)
  = Throw (Error memo_message).
Proof.
  intros rt Model base c.
  apply (wrapping_the_result_again_throws rt Model rt Model base c (VObj 7)).
  vm_compute. reflexivity.
Defined.

Lemma statics_hoisted_witness :
  let rt := {| hasSymbol := true; isFunctionNameConfigurable := true;
               ToString := λ _, "Card" |} in
  let Model := {| super_annotations := None |} in
  let base := {| o_self := VFun 0; o_name := VStr "Card";
                 o_own := {[ "displayName" := VStr "Card";
                             "defaultProps" := VObj 2 ]} |} in
  let c := default (ObserverFn VUndefined)
             (observerWithModel_ok rt Model base) in
  own_of c !! "defaultProps" = Some (VObj 2)
  ∧ ∃ W, wrapper_of c = Some W ∧ own_of W !! "defaultProps" = Some (VObj 2).
Proof.
  intros rt Model base c.
  apply (statics_are_hoisted_on_both_components rt Model base c
           "defaultProps" (VObj 2)).
  - vm_compute. reflexivity.
  - apply (bool_decide_unpack _). vm_compute. exact I.
  - vm_compute. reflexivity.
Defined.

Lemma labels_witness :
  let rt := {| hasSymbol := true; isFunctionNameConfigurable := true;
               ToString := λ _, "Card" |} in
  let Model := {| super_annotations := None |} in
  let base := {| o_self := VFun 0; o_name := VStr "Card";
                 o_own := {[ "displayName" := VStr "Card";
                             "defaultProps" := VObj 2 ]} |} in
  let c := default (ObserverFn VUndefined)
             (observerWithModel_ok rt Model base) in
  ∃ f W,
    function_of c = Some f ∧ wrapper_of c = Some W
    ∧ own_of f !! "displayName" = Some (prop base "displayName")
    ∧ own_of W !! "displayName"
      = Some (if truthy (prop base "displayName")
              then VStr ("ObserverWrapper"
                           ++ ToString rt (prop base "displayName"))
              else prop base "displayName")
    ∧ (isFunctionNameConfigurable rt = true →
       name_of f = o_name base
       ∧ name_of W = if truthy (o_name base)
                     then VStr ("Wrap" ++ ToString rt (o_name base))
                     else o_name base).
Proof.
  intros rt Model base c.
  apply (labels_of_the_produced_components rt Model base c).
  vm_compute. reflexivity.
Defined.

(** ** The comparator of a key that names a member of Object.prototype *)

(** C1 fails on this input: the model class of the test hands
    [{ value: comparer.identity }] to [super], and the key ["toString"] is
    read.  The annotations have no entry for this key, yet the comparator
    of the computation created for it is not [comparer.identity]: the read
    [model.annotations?.["toString"]] finds the function the object literal
    inherits from [Object.prototype], and that becomes the comparator.
    Called with two values it returns a string, which is truthy, so the
    computation never takes a new value: after the prop named ["toString"]
    went from 1 to 2 the accessor still returns 1. *)
Theorem comparator_of_toString_is_the_inherited_function :
  let own_props : addr → gmap string jsval :=
    λ p, if decide (p = 0)
         then {[ "value" := VNum 10; "toString" := VNum 1 ]}
         else {[ "value" := VNum 10; "toString" := VNum 2 ]} in
  let members : jsval → IEqualsComparer := λ _ _ _, true in
  let Model :=
    {| super_annotations := Some {[ "value" := Some comparer_identity ]} |} in
  let st := run own_props members Model
              (mount own_props Model 0 VNull empty_world)
              [Read "toString"; Render 5 VNull] in
  let inherited := members (VBuiltinFun "Object.prototype.toString") in
  super_annotations Model ≫= (λ a, a !! "toString") = None
  ∧ equals_for members (new_Model Model) "toString" = inherited
  ∧ (∃ c, cache_of 1 st.2 !! "toString" = Some c ∧ c_equals c = inherited)
  ∧ inherited (VNum 1) (VNum 2) = true
  ∧ comparer_identity (VNum 1) (VNum 2) = false
  ∧ getProps st.1 st.2 = Some 5
  ∧ read_prop own_props 5 "toString" = VNum 2
  ∧ (model_get own_props members (getProps st.1) 1 "toString" st.2).1
    = Ok (VNum 1).
Proof.
  intros own_props members Model st inherited.
  split_and!; try (vm_compute; reflexivity).
  eexists. split; vm_compute; reflexivity.
Qed.

(** C10 fails as it is worded: the key ["text"] has a comparator that
    considers all values equal, it is read while the props have it, and
    then the props come without it.  The key is absent from the current
    snapshot, and the accessor returns the value it held, not undefined. *)
Lemma absent_key_can_return_the_held_value :
  let own_props : addr → gmap string jsval :=
    λ p, if decide (p = 0) then {[ "text" := VStr "a" ]} else ∅ in
  let members : jsval → IEqualsComparer := λ _ _ _, true in
  let Model :=
    {| super_annotations := Some {[ "text" := Some (λ _ _ : jsval, true) ]} |} in
  let st := run own_props members Model
              (mount own_props Model 0 VNull empty_world)
              [Read "text"; Render 5 VNull] in
  getProps st.1 st.2 = Some 5
  ∧ absent own_props 5 "text"
  ∧ (model_get own_props members (getProps st.1) 1 "text" st.2).1
    = Ok (VStr "a")
  ∧ (model_get own_props members (getProps st.1) 1 "text" st.2).1
    ≠ Ok VUndefined.
Proof.
  intros own_props members Model st.
  split_and!; try (vm_compute; reflexivity).
  - split; vm_compute; reflexivity.
  - vm_compute. discriminate.
Qed.
